(** * Statistical core of [analysis.py] (chart 8: regression, forecast bands,
      correlation and growth rate)

    The chart-8 block of the script fits straight lines with
    [scipy.stats.linregress], extrapolates them to 2025-2027, draws an
    uncertainty band around each projection and prints a compound growth
    rate.  This development embeds that block and the library routine it
    calls, and proves the properties the specification states about it.

    Number model.  [float64] values are represented by real numbers, so
    rounding is idealised away; the operations that would give [nan] or
    [inf] in IEEE arithmetic are modelled as the outcome [NonFinite]
    (the script installs [warnings.filterwarnings('ignore')], so numpy
    reports nothing in those cases).  Integer arrays are lists of [Z]. *)

From Stdlib Require Import Reals List ZArith Bool Lra Lia Psatz.
From Stdlib Require String.
Import ListNotations.
Import String.StringSyntax.
Delimit Scope string_scope with string.
Open Scope R_scope.

(** ** Outcomes of a Python computation *)

Inductive pyexn : Type :=
| ValueError
| ZeroDivisionError.

Inductive outcome (A : Type) : Type :=
| Ok (a : A)
| Raises (e : pyexn)
| NonFinite.

Arguments Ok {A} a.
Arguments Raises {A} e.
Arguments NonFinite {A}.

Definition bind {A B : Type} (m : outcome A) (k : A -> outcome B) : outcome B :=
  match m with
  | Ok a => k a
  | Raises e => Raises e
  | NonFinite => NonFinite
  end.

Notation "x <- m ;; k" := (bind m (fun x => k))
  (at level 61, m at next level, right associativity).

(** Comparisons of floats, as booleans. *)

Definition Reqb (a b : R) : bool := if Req_EM_T a b then true else false.
Definition Rltb (a b : R) : bool := if Rlt_dec a b then true else false.

(** ** numpy primitives *)

Module Np.

(** [np.asarray] of an integer array handed to float arithmetic. *)
Definition asfloat (a : list Z) : list R := map IZR a.

(** [a.sum()] *)
Definition sum (a : list R) : R := fold_right Rplus 0 a.

(** [a.mean()] *)
Definition mean (a : list R) : R := sum a / INR (length a).

(** [np.amax(a)], [np.amin(a)] on a non-empty array. *)
Definition amax (a : list R) : R :=
  match a with
  | [] => 0
  | v :: l => fold_left Rmax l v
  end.

Definition amin (a : list R) : R :=
  match a with
  | [] => 0
  | v :: l => fold_left Rmin l v
  end.

(** Element-wise [a - b] and [a + b] of two arrays of the same shape. *)
Fixpoint map2 {A B C : Type} (f : A -> B -> C) (a : list A) (b : list B) : list C :=
  match a, b with
  | u :: a', v :: b' => f u v :: map2 f a' b'
  | _, _ => []
  end.

Definition sub (a b : list R) : list R := map2 Rminus a b.
Definition add (a b : list R) : list R := map2 Rplus a b.

(** [a / c] and [a - c], [a + c] with a scalar [c]. *)
Definition div_scalar (a : list R) (c : R) : list R := map (fun v => v / c) a.

(** [np.cov(x, y, bias=1).flat] without its third entry: the averaged
    sums of squared and cross deviations [(ssxm, ssxym, ssym)]. *)
Definition cov_bias1 (x y : list R) : R * R * R :=
  let n := INR (length x) in
  let xm := mean x in
  let ym := mean y in
  (sum (map (fun u => (u - xm) * (u - xm)) x) / n,
   sum (map (fun p => (fst p - xm) * (snd p - ym)) (combine x y)) / n,
   sum (map (fun v => (v - ym) * (v - ym)) y) / n).

(** [b ** e] on [float64]: [nan] for a negative base with a fractional
    exponent, [inf] for [0 ** negative]. *)
Definition power (b e : R) : outcome R :=
  if Rltb 0 b then Ok (Rpower b e)
  else if Reqb b 0 then
    (if Rltb 0 e then Ok 0 else if Reqb e 0 then Ok 1 else NonFinite)
  else if Reqb e (IZR (Int_part e)) then Ok (powerRZ b (Int_part e))
  else NonFinite.

(** [a / b] on [float64] scalars: [inf] or [nan] when [b] is zero. *)
Definition fdiv (a b : R) : outcome R :=
  if Reqb b 0 then NonFinite else Ok (a / b).

End Np.

(** [1 / n] on Python integers: true division, raising on zero. *)
Definition py_inv (n : Z) : outcome R :=
  if (n =? 0)%Z then Raises ZeroDivisionError else Ok (1 / IZR n).

(** ** [scipy.stats.linregress]

    The library routine the script calls four times.  Its result carries
    [slope], [intercept], [rvalue], [pvalue], [stderr]; the script never
    reads the p-value, which is left out here.  The routine
    - raises [ValueError] on empty input, on an [x] whose entries are all
      identical (for more than one point), and (inside [np.cov]) on
      arrays of different lengths;
    - when either averaged sum of squares is zero it does not compute
      [r]: older releases set [r = 0.0], recent ones
      [r = nan if ssxym == 0 else 0.0]; otherwise it clips
      [ssxym / sqrt(ssxm * ssym)] to [-1, 1];
    - returns [stderr = 0.0] for two points and
      [sqrt((1 - r**2) * ssym / ssxm / df)] with [df = n - 2] otherwise:
      this is the standard error of the slope.
    The script does not pin the release it runs with, so the treatment of
    a zero sum of squares is a parameter of the model.  Here a returned
    result that holds a [nan] is the outcome [NonFinite]; the module
    [Fields] below keeps the returned fields apart. *)

Module Scipy.

Record LinregressResult : Type := {
  slope : R;
  intercept : R;
  rvalue : R;
  stderr : R
}.

Inductive constant_policy : Type :=
| ZeroOnConstant    (* r = 0.0 *)
| NanOnConstant.    (* r = nan if ssxym == 0 else 0.0 *)

Definition degenerate_r (pol : constant_policy) (ssxym : R) : outcome R :=
  match pol with
  | ZeroOnConstant => Ok 0
  | NanOnConstant => if Reqb ssxym 0 then NonFinite else Ok 0
  end.

Definition clip_r (r : R) : R :=
  if Rltb 1 r then 1 else if Rltb r (-1) then -1 else r.

Definition linregress (pol : constant_policy) (x y : list R)
  : outcome LinregressResult :=
  if ((length x =? 0) || (length y =? 0))%nat then Raises ValueError
  else if Reqb (Np.amax x) (Np.amin x) && (1 <? length x)%nat then Raises ValueError
  else if negb (length x =? length y)%nat then Raises ValueError
  else
    let n := length x in
    let xmean := Np.mean x in
    let ymean := Np.mean y in
    let '(ssxm, ssxym, ssym) := Np.cov_bias1 x y in
    r <- (if Reqb ssxm 0 || Reqb ssym 0 then degenerate_r pol ssxym
          else Ok (clip_r (ssxym / sqrt (ssxm * ssym)))) ;;
    slope <- Np.fdiv ssxym ssxm ;;
    let intercept := ymean - slope * xmean in
    let slope_stderr :=
      if (n =? 2)%nat then 0
      else sqrt ((1 - r ^ 2) * ssym / ssxm / INR (n - 2)) in
    Ok {| slope := slope; intercept := intercept;
          rvalue := r; stderr := slope_stderr |}.

End Scipy.

(** ** Chart 8 of the script *)

Module Chart8.
Import Scipy.

(** The hard-coded series (integer arrays). *)
Definition years_hist : list Z := [2019; 2020; 2021; 2022; 2023; 2024]%Z.
Definition revenue_h : list Z := [13200; 13000; 13800; 15100; 16325; 18202]%Z.
Definition expenses_h : list Z := [12800; 13100; 13500; 14200; 15075; 16186]%Z.
Definition surplus_h : list Z := Np.map2 Z.sub revenue_h expenses_h.
Definition net_debt_h : list Z := [5500; 6200; 7000; 8000; 9602; 10005]%Z.
Definition years_proj : list Z := [2025; 2026; 2027]%Z.

(** [slope * years_proj + intercept] *)
Definition project (fit : LinregressResult) (periods : list R) : list R :=
  map (fun p => slope fit * p + intercept fit) periods.

(** The factor under the square root of line 801 at one requested
    period [p]:
    [1 + 1/len(years_hist) + (p - years_hist.mean())**2
       / ((years_hist - years_hist.mean())**2).sum()]. *)
Definition spread (hist : list R) (p : R) : R :=
  1 + 1 / INR (length hist)
  + (p - Np.mean hist) ^ 2
    / Np.sum (map (fun y => (y - Np.mean hist) ^ 2) hist).

(** [ci = 1.96 * se_r * np.sqrt(...)], one entry per projected year.
    It is evaluated after [linregress] has returned for [hist], so [hist]
    is not empty and its entries are not all equal. *)
Definition ci_at (se : R) (hist : list R) (p : R) : R :=
  1.96 * se * sqrt (spread hist p).

Definition ci (se : R) (hist periods : list R) : list R :=
  map (ci_at se hist) periods.

(** The growth rate printed in the title of panel 8a,
    [(v_n / v_0) ** (1 / n) - 1], with the script's literal [5]
    generalised to [n]. *)
Definition cagr (v0 vn : R) (n : Z) : outcome R :=
  q <- Np.fdiv vn v0 ;;
  e <- py_inv n ;;
  g <- Np.power q e ;;
  Ok (g - 1).

(** Everything chart 8 computes, under the script's variable names.
    Bands are kept in the script's units (millions); [plot] is the
    division by 1000 applied when drawing. *)
Record Values : Type := {
  fit_r : LinregressResult;      (* slope_r, intercept_r, r_r, se_r *)
  rev_proj : list R;
  r2_r : R;                      (* r_r**2 in the legend *)
  ci_r : list R;
  rev_lo : list R;               (* rev_proj - ci *)
  rev_hi : list R;               (* rev_proj + ci *)
  cagr_r : R;
  fit_e : LinregressResult;      (* slope_e, intercept_e, r_e, se_e *)
  exp_proj : list R;
  exp_lo : list R;               (* exp_proj - 1.96*se_e *)
  exp_hi : list R;               (* exp_proj + 1.96*se_e *)
  surplus_proj : list R;         (* rev_proj - exp_proj *)
  fit_re : LinregressResult;     (* slope_re, intercept_re, r_re *)
  fit_nd : LinregressResult;     (* slope_nd, intercept_nd, r_nd, se_nd *)
  nd_proj : list R;
  nd_lo : list R;                (* nd_proj - 1.5*se_nd *)
  nd_hi : list R                 (* nd_proj + 1.5*se_nd *)
}.

Definition plot (a : list R) : list R := Np.div_scalar a 1000.

Definition run (pol : constant_policy) : outcome Values :=
  let years := Np.asfloat years_hist in
  let proj := Np.asfloat years_proj in
  (* 8a *)
  fr <- linregress pol years (Np.asfloat revenue_h) ;;
  let rev_proj := project fr proj in
  let ci := ci (stderr fr) years proj in
  g <- cagr (IZR (nth 0 revenue_h 0%Z)) (IZR (last revenue_h 0%Z)) 5 ;;
  (* 8b *)
  fe <- linregress pol years (Np.asfloat expenses_h) ;;
  let exp_proj := project fe proj in
  (* 8c *)
  fre <- linregress pol (Np.asfloat revenue_h) (Np.asfloat expenses_h) ;;
  (* 8d *)
  fnd <- linregress pol years (Np.asfloat net_debt_h) ;;
  let nd_proj := project fnd proj in
  Ok {| fit_r := fr;
        rev_proj := rev_proj;
        r2_r := rvalue fr ^ 2;
        ci_r := ci;
        rev_lo := Np.sub rev_proj ci;
        rev_hi := Np.add rev_proj ci;
        cagr_r := g;
        fit_e := fe;
        exp_proj := exp_proj;
        exp_lo := map (fun v => v - 1.96 * stderr fe) exp_proj;
        exp_hi := map (fun v => v + 1.96 * stderr fe) exp_proj;
        surplus_proj := Np.sub rev_proj exp_proj;
        fit_re := fre;
        fit_nd := fnd;
        nd_proj := nd_proj;
        nd_lo := map (fun v => v - 1.5 * stderr fnd) nd_proj;
        nd_hi := map (fun v => v + 1.5 * stderr fnd) nd_proj |}.

End Chart8.

(** ** Textbook quantities the specification speaks of *)

Module Stat.

(** Sums of squared and cross deviations from the mean. *)
Definition Sxx (x : list R) : R :=
  Np.sum (map (fun u => (u - Np.mean x) ^ 2) x).

Definition Sxy (x y : list R) : R :=
  Np.sum (map (fun p => (fst p - Np.mean x) * (snd p - Np.mean y)) (combine x y)).

(** Residual sum of squares of the line [b * x + a]. *)
Definition SSres (b a : R) (x y : list R) : R :=
  Np.sum (map (fun p => (snd p - (b * fst p + a)) ^ 2) (combine x y)).

(** Ordinary least squares: [slope = Sxy / Sxx],
    [intercept = mean y - slope * mean x]. *)
Definition ols_slope (x y : list R) : R := Sxy x y / Sxx x.
Definition ols_intercept (x y : list R) : R :=
  Np.mean y - ols_slope x y * Np.mean x.

(** [R^2 = 1 - SSres / SStot] of the line [b * x + a]. *)
Definition r_squared (b a : R) (x y : list R) : R :=
  1 - SSres b a x y / Sxx y.

(** Pearson's [r = Sxy / sqrt (Sxx * Syy)]. *)
Definition pearson (x y : list R) : R :=
  Sxy x y / sqrt (Sxx x * Sxx y).

(** Standard error of the estimate, [sqrt (SSres / (n - 2))]. *)
Definition std_err_estimate (b a : R) (x y : list R) : R :=
  sqrt (SSres b a x y / (INR (length x) - 2)).

(** Prediction-interval half-width
    [1.96 * se * sqrt (1 + 1/n + (p - mean x)^2 / Sxx)]. *)
Definition half_width (se : R) (n : nat) (xbar sxx p : R) : R :=
  1.96 * se * sqrt (1 + 1 / INR n + (p - xbar) ^ 2 / sxx).

(** The least-squares line of [y] against [x], evaluated at [p]. *)
Definition ols_line_at (x y : list R) (p : R) : R :=
  ols_slope x y * p + ols_intercept x y.

(** The surplus projection obtained by fitting one least-squares line,
    by the formulas above, to the surplus series itself and evaluating it
    at each projected year (the right-hand side of the linearity
    property). *)
Definition surplus_direct_proj : list R :=
  map (ols_line_at (Np.asfloat Chart8.years_hist)
                   (Np.asfloat Chart8.surplus_h))
      (Np.asfloat Chart8.years_proj).

End Stat.

(** ** The fields [linregress] returns, one by one

    The same routine with each returned [float64] kept apart: a field is
    [Ok v] for a finite value and [NonFinite] for [nan] or [inf].  Past
    its guards the routine always returns; a constant [y] makes only the
    correlation, and through it the standard error, not finite.  The
    argument of [np.sqrt] is never negative here ([r] is clipped), so the
    square root itself yields no [nan]. *)

Module Fields.

Record LinregressFields : Type := {
  slope : outcome R;
  intercept : outcome R;
  rvalue : outcome R;
  stderr : outcome R
}.

Definition linregress (pol : Scipy.constant_policy) (x y : list R)
  : outcome LinregressFields :=
  if ((length x =? 0) || (length y =? 0))%nat then Raises ValueError
  else if Reqb (Np.amax x) (Np.amin x) && (1 <? length x)%nat then Raises ValueError
  else if negb (length x =? length y)%nat then Raises ValueError
  else
    let n := length x in
    let xmean := Np.mean x in
    let ymean := Np.mean y in
    let '(ssxm, ssxym, ssym) := Np.cov_bias1 x y in
    let r := if Reqb ssxm 0 || Reqb ssym 0 then Scipy.degenerate_r pol ssxym
             else Ok (Scipy.clip_r (ssxym / sqrt (ssxm * ssym))) in
    let slope := Np.fdiv ssxym ssxm in
    let intercept := b <- slope ;; Ok (ymean - b * xmean) in
    let slope_stderr :=
      if (n =? 2)%nat then Ok 0
      else rv <- r ;;
           q <- Np.fdiv ((1 - rv ^ 2) * ssym) ssxm ;;
           Ok (sqrt (q / INR (n - 2))) in
    Ok {| slope := slope; intercept := intercept;
          rvalue := r; stderr := slope_stderr |}.

(** The result when every field is finite. *)
Definition finite (o : outcome LinregressFields)
  : outcome Scipy.LinregressResult :=
  f <- o ;;
  r <- rvalue f ;;
  b <- slope f ;;
  a <- intercept f ;;
  s <- stderr f ;;
  Ok {| Scipy.slope := b; Scipy.intercept := a;
        Scipy.rvalue := r; Scipy.stderr := s |}.

End Fields.

(** Closed form of what [linregress] returns when neither series is
    constant (at least two points). *)
Definition closed_fit (x y : list R) : Scipy.LinregressResult :=
  let b := Stat.ols_slope x y in
  let a := Stat.ols_intercept x y in
  {| Scipy.slope := b;
     Scipy.intercept := a;
     Scipy.rvalue := Stat.pearson x y;
     Scipy.stderr :=
       if (length x =? 2)%nat then 0
       else sqrt (Stat.SSres b a x y / (INR (length x) - 2) / Stat.Sxx x) |}.

(** The values chart 8 computes on its hard-coded series, in closed form. *)
Definition run_values : Chart8.Values :=
  let years := Np.asfloat Chart8.years_hist in
  let proj := Np.asfloat Chart8.years_proj in
  let fr := closed_fit years (Np.asfloat Chart8.revenue_h) in
  let fe := closed_fit years (Np.asfloat Chart8.expenses_h) in
  let fre := closed_fit (Np.asfloat Chart8.revenue_h) (Np.asfloat Chart8.expenses_h) in
  let fnd := closed_fit years (Np.asfloat Chart8.net_debt_h) in
  let rev_proj := Chart8.project fr proj in
  let exp_proj := Chart8.project fe proj in
  let nd_proj := Chart8.project fnd proj in
  let ci := Chart8.ci (Scipy.stderr fr) years proj in
  {| Chart8.fit_r := fr;
     Chart8.rev_proj := rev_proj;
     Chart8.r2_r := Scipy.rvalue fr ^ 2;
     Chart8.ci_r := ci;
     Chart8.rev_lo := Np.sub rev_proj ci;
     Chart8.rev_hi := Np.add rev_proj ci;
     Chart8.cagr_r := Rpower (18202 / 13200) (1 / 5) - 1;
     Chart8.fit_e := fe;
     Chart8.exp_proj := exp_proj;
     Chart8.exp_lo := map (fun v => v - 1.96 * Scipy.stderr fe) exp_proj;
     Chart8.exp_hi := map (fun v => v + 1.96 * Scipy.stderr fe) exp_proj;
     Chart8.surplus_proj := Np.sub rev_proj exp_proj;
     Chart8.fit_re := fre;
     Chart8.fit_nd := fnd;
     Chart8.nd_proj := nd_proj;
     Chart8.nd_lo := map (fun v => v - 1.5 * Scipy.stderr fnd) nd_proj;
     Chart8.nd_hi := map (fun v => v + 1.5 * Scipy.stderr fnd) nd_proj |}.

(** [x] is [v] to within [tol]. *)
Definition approx (tol x v : R) : Prop := Rabs (x - v) <= tol.

(** ** The other computations of the script

    Beside chart 8 the script computes a few things itself: the bars of
    two waterfall charts, percentage changes guarded against a zero base,
    and the position of the surplus annotations of panel 8b.  Colours are
    the theme's hexadecimal strings. *)

Module Theme.
Definition NAVY : String.string := "#003366"%string.
Definition BLACK : String.string := "#000000"%string.
Definition WHITE : String.string := "#FFFFFF"%string.
Definition RED_ACC : String.string := "#C8102E"%string.
Definition GREEN_ACC : String.string := "#00703C"%string.
End Theme.

(** Sum of a list of Python integers. *)
Definition zsum (l : list Z) : Z := fold_right Z.add 0%Z l.

(** *** Chart 1, net debt bridge (lines 211-226) *)

Module Bridge.
Import Theme.

Record Bars : Type := {
  bottoms : list Z;
  heights : list Z;
  bar_colors : list String.string
}.

Definition no_bars : Bars :=
  {| bottoms := []; heights := []; bar_colors := [] |}.

(** [bottoms.append(b); heights.append(h); bar_colors.append(c)] *)
Definition push (a : Bars) (b h : Z) (c : String.string) : Bars :=
  {| bottoms := bottoms a ++ [b];
     heights := heights a ++ [h];
     bar_colors := bar_colors a ++ [c] |}.

(** The body of [for i, (item, v) in enumerate(zip(items, vals))], from
    index [i] on; [n_items] is [len(items)]. *)
Fixpoint loop (n_items i : Z) (zs : list (String.string * Z))
    (running : Z) (acc : Bars) : Z * Bars :=
  match zs with
  | [] => (running, acc)
  | (_, v) :: rest =>
      if ((i =? 0) || (i =? n_items - 1))%Z then
        loop n_items (i + 1)%Z rest running (push acc 0%Z v NAVY)
      else if (v <? 0)%Z then
        loop n_items (i + 1)%Z rest (running + v)%Z (push acc running v RED_ACC)
      else
        loop n_items (i + 1)%Z rest (running + v)%Z (push acc running v GREEN_ACC)
  end.

Definition run (items : list String.string) (vals : list Z) (running : Z)
  : Z * Bars :=
  loop (Z.of_nat (length items)) 0%Z (combine items vals) running no_bars.

(** The script's data. *)
Definition items : list String.string :=
  ["Net Debt
2023"; "TCA
Investment"; "Surplus
2016"; "Remeasure
Gains"; "Net Debt
2024"]%string.
Definition vals : list Z := [-9602; -2564; 2016; 165; -10005]%Z.

(** What the bridge should show: the running total before each step, and
    the colour of a step by its sign. *)
Fixpoint running_before (r : Z) (steps : list Z) : list Z :=
  match steps with
  | [] => []
  | v :: rest => r :: running_before (r + v)%Z rest
  end.

Definition step_colour (v : Z) : String.string :=
  if (v <? 0)%Z then RED_ACC else GREEN_ACC.

End Bridge.

(** *** Chart 4d, liability composition (lines 488-499) *)

Module Stack.
Import Theme.

(** One pass of the loop: the [ax.bar] call, and the [ax.text] call when
    [abs(v) > 500].  The text shows [abs(v)/1000]. *)
Record BarCall : Type := {
  bar_height : R;          (* abs(v)/1000 *)
  bar_bottom : R;          (* running/1000 *)
  bar_color : String.string
}.

Record TextCall : Type := {
  text_x : Z;              (* i *)
  text_y : R;              (* (running + v/2)/1000 *)
  text_value : R;          (* abs(v)/1000 *)
  text_color : String.string
}.

Fixpoint loop (i : Z) (zs : list (String.string * Z)) (running : Z)
  : list (BarCall * option TextCall) * Z :=
  match zs with
  | [] => ([], running)
  | (_, v) :: rest =>
      let c := if (0 <? v)%Z then NAVY else GREEN_ACC in
      let bar := {| bar_height := IZR (Z.abs v) / 1000;
                    bar_bottom := IZR running / 1000;
                    bar_color := c |} in
      let text :=
        if (500 <? Z.abs v)%Z then
          Some {| text_x := i;
                  text_y := (IZR running + IZR v / 2) / 1000;
                  text_value := IZR (Z.abs v) / 1000;
                  text_color := if (0 <? v)%Z then WHITE else BLACK |}
        else None in
      let running' := if (0 <? v)%Z then (running + v)%Z else running in
      let '(calls, final) := loop (i + 1)%Z rest running' in
      ((bar, text) :: calls, final)
  end.

Definition run (categories_nd : list String.string) (vals_nd : list Z)
  : list (BarCall * option TextCall) * Z :=
  loop 0%Z (combine categories_nd vals_nd) 0%Z.

Definition vals_nd : list Z := [8880; 4930; 7891; 6529; -18225]%Z.

(** Height of the stack before each value: only positive values count. *)
Fixpoint stack_before (r : Z) (l : list Z) : list Z :=
  match l with
  | [] => []
  | v :: rest => r :: stack_before (r + Z.max v 0)%Z rest
  end.

End Stack.

(** *** Guarded percentage changes *)

Module Percent.
Import Theme.


(** Lines 619-621, for one row with its 2023 and 2024 values. *)
Inductive label : Type :=
| NewLabel                 (* '+NEW' *)
| PctLabel (pct : R).      (* f'{pct:+.0f}%' *)

Definition inv_pct (v23 v24 : R) : R :=
  if Rltb 0 v23 then (v24 - v23) / v23 * 100 else 999.

Definition inv_colour (pct : R) : String.string :=
  if Rltb 0 pct then GREEN_ACC else RED_ACC.

Definition inv_label (pct : R) : label :=
  if Reqb pct 999 then NewLabel else PctLabel pct.

End Percent.

(** *** Panel 8b, surplus annotations (lines 821-824) *)

Module Annotate.
Import Theme.

Inductive lookup_error : Type :=
| NotInList          (* ValueError of [list.index] *)
| IndexOutOfRange.   (* IndexError of the array subscript *)

(** [l.index(y)] *)
Fixpoint index (l : list Z) (y : Z) : option nat :=
  match l with
  | [] => None
  | z :: rest =>
      if (z =? y)%Z then Some 0%nat
      else match index rest y with
           | Some k => Some (S k)
           | None => None
           end
  end.

(** [exp_proj[list(years_proj).index(y)]] *)
Definition lookup (years_proj : list Z) (exp_proj : list R) (y : Z)
  : lookup_error + R :=
  match index years_proj y with
  | None => inl NotInList
  | Some k =>
      match nth_error exp_proj k with
      | None => inl IndexOutOfRange
      | Some v => inr v
      end
  end.

(** One [ax.annotate] call: the value written (through [fmt_m]), the
    point it is attached to and its colour. *)
Record Annotation : Type := {
  ann_value : R;
  ann_x : Z;
  ann_y : R;
  ann_color : String.string
}.

(** [for y, s in zip(years_proj, surplus_proj)], over the pairs still to
    visit. *)
Fixpoint loop (years_proj : list Z) (exp_proj : list R) (zs : list (Z * R))
  : lookup_error + list Annotation :=
  match zs with
  | [] => inr []
  | (y, s) :: rest =>
      let c := if Rle_dec 0 s then GREEN_ACC else RED_ACC in
      match lookup years_proj exp_proj y with
      | inl e => inl e
      | inr h =>
          match loop years_proj exp_proj rest with
          | inl e => inl e
          | inr anns =>
              inr ({| ann_value := s; ann_x := y;
                      ann_y := h / 1000 + 0.3; ann_color := c |} :: anns)
          end
      end
  end.

Definition run (years_proj : list Z) (surplus_proj exp_proj : list R)
  : lookup_error + list Annotation :=
  loop years_proj exp_proj (combine years_proj surplus_proj).

(** The annotation expected for a year with its surplus and its expense
    projection. *)
Definition annotation_of (t : Z * (R * R)) : Annotation :=
  {| ann_value := fst (snd t);
     ann_x := fst t;
     ann_y := snd (snd t) / 1000 + 0.3;
     ann_color := if Rle_dec 0 (fst (snd t)) then GREEN_ACC else RED_ACC |}.

End Annotate.

(** * Proofs *)

(** ** Boolean comparisons *)

Lemma Reqb_true (a b : R) : a = b -> Reqb a b = true.
Proof. intros H. unfold Reqb. destruct (Req_EM_T a b); congruence. Qed.

Lemma Reqb_false (a b : R) : a <> b -> Reqb a b = false.
Proof. intros H. unfold Reqb. destruct (Req_EM_T a b); congruence. Qed.

Lemma Rltb_true (a b : R) : a < b -> Rltb a b = true.
Proof. intros H. unfold Rltb. destruct (Rlt_dec a b); tauto. Qed.

Lemma Rltb_false (a b : R) : ~ a < b -> Rltb a b = false.
Proof. intros H. unfold Rltb. destruct (Rlt_dec a b); tauto. Qed.

(** ** Sums over arrays *)

Section Sums.
Context {A : Type}.
Implicit Types (f g : A -> R) (l : list A).

Lemma sum_cons (a : R) (l : list R) : Np.sum (a :: l) = a + Np.sum l.
Proof. reflexivity. Qed.

Lemma sum_map_ext f g l :
  (forall p, In p l -> f p = g p) -> Np.sum (map f l) = Np.sum (map g l).
Proof.
  induction l as [|p l IH]; intros H; simpl; [reflexivity|].
  rewrite (H p), IH; auto with datatypes.
Qed.

Lemma sum_map_plus f g l :
  Np.sum (map (fun p => f p + g p) l) = Np.sum (map f l) + Np.sum (map g l).
Proof. induction l as [|p l IH]; simpl; [|rewrite IH]; ring. Qed.

Lemma sum_map_scal c f l :
  Np.sum (map (fun p => c * f p) l) = c * Np.sum (map f l).
Proof. induction l as [|p l IH]; simpl; [|rewrite IH]; ring. Qed.

Lemma sum_map_const c l :
  Np.sum (map (fun _ => c) l) = INR (length l) * c.
Proof.
  induction l as [|p l IH]; [simpl; ring|].
  change (length (p :: l)) with (S (length l)). rewrite S_INR.
  simpl. rewrite IH. ring.
Qed.

Lemma sum_sq_nonneg f l : 0 <= Np.sum (map (fun p => f p ^ 2) l).
Proof.
  induction l as [|p l IH]; cbn [map]; [simpl; lra|].
  rewrite sum_cons. pose proof (pow2_ge_0 (f p)) as H. lra.
Qed.

Lemma sum_sq_zero f l :
  Np.sum (map (fun p => f p ^ 2) l) = 0 -> forall p, In p l -> f p = 0.
Proof.
  induction l as [|q l IH]; cbn [map]; intros H p Hin; [contradiction|].
  rewrite sum_cons in H.
  pose proof (pow2_ge_0 (f q)) as Hq.
  pose proof (sum_sq_nonneg f l) as Hl.
  destruct Hin as [->|Hin].
  - assert (Hz : f p ^ 2 = 0) by lra.
    apply (pow_eq_0 _ 2 Hz) || (simpl in Hz; nra).
  - apply IH; [lra|exact Hin].
Qed.

(** The expansion behind least squares:
    [sum (v - b u)^2 = sum v^2 - 2 b sum u v + b^2 sum u^2]. *)
Lemma sum_sq_affine (u v : A -> R) b l :
  Np.sum (map (fun p => (v p - b * u p) ^ 2) l)
  = Np.sum (map (fun p => v p ^ 2) l)
    - 2 * b * Np.sum (map (fun p => u p * v p) l)
    + b ^ 2 * Np.sum (map (fun p => u p ^ 2) l).
Proof.
  induction l as [|p l IH]; cbn [map]; [simpl; ring|].
  rewrite !sum_cons, IH. ring.
Qed.

End Sums.

Lemma sum_combine_fst (f : R -> R) (x y : list R) :
  length x = length y ->
  Np.sum (map (fun p => f (fst p)) (combine x y)) = Np.sum (map f x).
Proof.
  revert y. induction x as [|u x IH]; intros [|v y] H; simpl in *;
    try discriminate; [reflexivity|].
  rewrite IH by lia. reflexivity.
Qed.

Lemma sum_combine_snd (f : R -> R) (x y : list R) :
  length x = length y ->
  Np.sum (map (fun p => f (snd p)) (combine x y)) = Np.sum (map f y).
Proof.
  revert y. induction x as [|u x IH]; intros [|v y] H; simpl in *;
    try discriminate; [reflexivity|].
  rewrite IH by lia. reflexivity.
Qed.

Lemma Sxx_nonneg (x : list R) : 0 <= Stat.Sxx x.
Proof. apply (sum_sq_nonneg (fun u => u - Np.mean x)). Qed.

Lemma SSres_nonneg b a x y : 0 <= Stat.SSres b a x y.
Proof. apply (sum_sq_nonneg (fun p => snd p - (b * fst p + a))). Qed.

(** A series with a non-zero spread has at least one point. *)
Lemma Sxx_nonzero_length (x : list R) : Stat.Sxx x <> 0 -> (0 < length x)%nat.
Proof.
  destruct x; [intros H; exfalso; apply H; reflexivity | simpl; lia].
Qed.

(** ** Residuals of the least-squares line *)

Lemma SSres_centered b x y :
  Stat.SSres b (Np.mean y - b * Np.mean x) x y
  = Np.sum (map (fun p => ((snd p - Np.mean y) - b * (fst p - Np.mean x)) ^ 2)
                (combine x y)).
Proof. unfold Stat.SSres. apply sum_map_ext. intros p _. ring. Qed.

Lemma SSres_expand b x y :
  length x = length y ->
  Stat.SSres b (Np.mean y - b * Np.mean x) x y
  = Stat.Sxx y - 2 * b * Stat.Sxy x y + b ^ 2 * Stat.Sxx x.
Proof.
  intros Hlen. rewrite SSres_centered.
  rewrite (sum_sq_affine (fun p => fst p - Np.mean x) (fun p => snd p - Np.mean y)).
  rewrite (sum_combine_snd (fun v => (v - Np.mean y) ^ 2)) by exact Hlen.
  rewrite (sum_combine_fst (fun u => (u - Np.mean x) ^ 2)) by exact Hlen.
  reflexivity.
Qed.

Lemma SSres_ols x y :
  length x = length y -> Stat.Sxx x <> 0 ->
  Stat.SSres (Stat.ols_slope x y) (Stat.ols_intercept x y) x y
  = Stat.Sxx y - Stat.Sxy x y ^ 2 / Stat.Sxx x.
Proof.
  intros Hlen Hx. unfold Stat.ols_intercept.
  rewrite SSres_expand by exact Hlen.
  unfold Stat.ols_slope. field. exact Hx.
Qed.

(** Cauchy-Schwarz, read off the non-negative residual sum. *)
Lemma Sxy_sq_le x y :
  length x = length y -> Stat.Sxy x y ^ 2 <= Stat.Sxx x * Stat.Sxx y.
Proof.
  intros Hlen.
  pose proof (Sxx_nonneg x) as Hx.
  destruct (Req_dec (Stat.Sxx x) 0) as [Hz|Hnz].
  - (* every x equals the mean, so the cross sum vanishes *)
    assert (H0 : Stat.Sxy x y = 0).
    { unfold Stat.Sxy.
      rewrite (sum_map_ext _ (fun _ => 0)).
      - rewrite sum_map_const. ring.
      - intros [u v] Hin. simpl.
        assert (Hu : u - Np.mean x = 0).
        { apply (sum_sq_zero (fun u => u - Np.mean x) x Hz).
          apply (in_combine_l _ _ _ _ Hin). }
        rewrite Hu. ring. }
    rewrite H0, Hz. lra.
  - pose proof (SSres_nonneg (Stat.ols_slope x y) (Stat.ols_intercept x y) x y) as Hr.
    rewrite SSres_ols in Hr by assumption.
    assert (Hpos : 0 < Stat.Sxx x) by lra.
    assert (Hq : Stat.Sxy x y ^ 2 / Stat.Sxx x <= Stat.Sxx y) by lra.
    apply (Rmult_le_compat_l (Stat.Sxx x)) in Hq; [|lra].
    replace (Stat.Sxx x * (Stat.Sxy x y ^ 2 / Stat.Sxx x)) with (Stat.Sxy x y ^ 2) in Hq
      by (field; lra).
    exact Hq.
Qed.

(** ** The guards of [linregress] *)

Lemma fold_max_ge (l : list R) (v : R) :
  v <= fold_left Rmax l v /\ forall u, In u l -> u <= fold_left Rmax l v.
Proof.
  revert v. induction l as [|w l IH]; intros v; simpl.
  - split; [lra | contradiction].
  - destruct (IH (Rmax v w)) as [H1 H2].
    pose proof (Rmax_l v w). pose proof (Rmax_r v w).
    split; [lra|]. intros u [->|Hin]; [lra | auto].
Qed.

Lemma fold_min_le (l : list R) (v : R) :
  fold_left Rmin l v <= v /\ forall u, In u l -> fold_left Rmin l v <= u.
Proof.
  revert v. induction l as [|w l IH]; intros v; simpl.
  - split; [lra | contradiction].
  - destruct (IH (Rmin v w)) as [H1 H2].
    pose proof (Rmin_l v w). pose proof (Rmin_r v w).
    split; [lra|]. intros u [->|Hin]; [lra | auto].
Qed.

Lemma amax_amin_all_equal (x : list R) :
  Np.amax x = Np.amin x -> forall u, In u x -> u = Np.amax x.
Proof.
  destruct x as [|v l]; [intros _ u []|].
  unfold Np.amax, Np.amin. intros Heq u Hin.
  destruct (fold_max_ge l v) as [M1 M2].
  destruct (fold_min_le l v) as [m1 m2].
  destruct Hin as [<-|Hin]; [lra|].
  specialize (M2 u Hin). specialize (m2 u Hin). lra.
Qed.

Lemma mean_all_equal (x : list R) (c : R) :
  x <> [] -> (forall u, In u x -> u = c) -> Np.mean x = c.
Proof.
  intros Hne Hall. unfold Np.mean.
  rewrite <- (map_id x) at 1.
  rewrite (sum_map_ext (fun u => u) (fun _ => c)) by exact Hall.
  rewrite sum_map_const. field.
  apply not_0_INR. destruct x; [congruence | simpl; lia].
Qed.

Lemma Sxx_all_equal (x : list R) (c : R) :
  (forall u, In u x -> u = c) -> Stat.Sxx x = 0.
Proof.
  intros Hall. destruct x as [|v l]; [reflexivity|].
  assert (Hm : Np.mean (v :: l) = c) by (apply mean_all_equal; [discriminate | exact Hall]).
  unfold Stat.Sxx. rewrite Hm.
  rewrite (sum_map_ext _ (fun _ => 0)).
  - rewrite sum_map_const. ring.
  - intros u Hin. rewrite (Hall u Hin). ring.
Qed.

Lemma Sxx_nonzero_amax (x : list R) :
  Stat.Sxx x <> 0 -> Np.amax x <> Np.amin x.
Proof.
  intros Hx Heq. apply Hx.
  apply (Sxx_all_equal x (Np.amax x)). apply amax_amin_all_equal. exact Heq.
Qed.

(** [np.cov(x, y, bias=1)] in terms of the deviation sums. *)
Lemma cov_bias1_spec (x y : list R) :
  Np.cov_bias1 x y
  = (Stat.Sxx x / INR (length x),
     Stat.Sxy x y / INR (length x),
     Stat.Sxx y / INR (length x)).
Proof.
  unfold Np.cov_bias1, Stat.Sxx, Stat.Sxy.
  rewrite (sum_map_ext (fun u => (u - Np.mean x) * (u - Np.mean x))
                       (fun u => (u - Np.mean x) ^ 2) x) by (intros; ring).
  rewrite (sum_map_ext (fun v => (v - Np.mean y) * (v - Np.mean y))
                       (fun v => (v - Np.mean y) ^ 2) y) by (intros; ring).
  reflexivity.
Qed.

(** Pearson's r lies in [-1, 1], so the clipping in [linregress] is the
    identity on it. *)
Lemma pearson_bounds (x y : list R) :
  length x = length y -> -1 <= Stat.pearson x y <= 1.
Proof.
  intros Hlen. unfold Stat.pearson.
  pose proof (Sxy_sq_le x y Hlen) as Hcs.
  pose proof (Sxx_nonneg x) as Hx. pose proof (Sxx_nonneg y) as Hy.
  set (s := Stat.Sxx x * Stat.Sxx y) in *.
  assert (Hs : 0 <= s) by (unfold s; nra).
  destruct (Req_dec s 0) as [Hz|Hnz].
  - rewrite Hz, sqrt_0. unfold Rdiv. rewrite Rinv_0. lra.
  - assert (Hq : 0 < sqrt s) by (apply sqrt_lt_R0; lra).
    assert (Hsq : sqrt s * sqrt s = s) by (apply sqrt_sqrt; lra).
    assert (Habs : - sqrt s <= Stat.Sxy x y <= sqrt s) by (split; nra).
    split.
    + apply (Rmult_le_reg_r (sqrt s)); [exact Hq|].
      unfold Rdiv. rewrite Rmult_assoc, Rinv_l by lra. lra.
    + apply (Rmult_le_reg_r (sqrt s)); [exact Hq|].
      unfold Rdiv. rewrite Rmult_assoc, Rinv_l by lra. lra.
Qed.

Lemma clip_r_id (r : R) : -1 <= r <= 1 -> Scipy.clip_r r = r.
Proof.
  intros [H1 H2]. unfold Scipy.clip_r.
  rewrite (Rltb_false 1 r) by lra. rewrite (Rltb_false r (-1)) by lra.
  reflexivity.
Qed.

(** ** What [linregress] returns *)

Lemma pearson_sq (x y : list R) :
  Stat.Sxx x <> 0 -> Stat.Sxx y <> 0 ->
  Stat.pearson x y ^ 2 = Stat.Sxy x y ^ 2 / (Stat.Sxx x * Stat.Sxx y).
Proof.
  intros Hx Hy. unfold Stat.pearson.
  pose proof (Sxx_nonneg x). pose proof (Sxx_nonneg y).
  assert (Hs : 0 < Stat.Sxx x * Stat.Sxx y) by (apply Rmult_lt_0_compat; lra).
  assert (Hq : sqrt (Stat.Sxx x * Stat.Sxx y) ^ 2 = Stat.Sxx x * Stat.Sxx y).
  { simpl. rewrite Rmult_1_r. apply sqrt_sqrt. lra. }
  assert (Hq0 : sqrt (Stat.Sxx x * Stat.Sxx y) <> 0).
  { pose proof (sqrt_lt_R0 _ Hs). lra. }
  rewrite <- Hq at 2. field. exact Hq0.
Qed.

Lemma div_INR_nonzero (a : R) (n : nat) :
  (0 < n)%nat -> a <> 0 -> a / INR n <> 0.
Proof.
  intros Hn Ha H. apply Ha.
  assert (HnR : 0 < INR n) by (apply lt_0_INR; exact Hn).
  apply (Rmult_eq_compat_r (INR n)) in H.
  unfold Rdiv in H.
  rewrite Rmult_assoc, Rinv_l, Rmult_1_r, Rmult_0_l in H by lra.
  exact H.
Qed.

(** The correlation as the routine computes it from the averaged sums. *)
Lemma rvalue_computed (x y : list R) :
  length x = length y -> Stat.Sxx x <> 0 -> Stat.Sxx y <> 0 ->
  let n := INR (length x) in
  Scipy.clip_r (Stat.Sxy x y / n / sqrt (Stat.Sxx x / n * (Stat.Sxx y / n)))
  = Stat.pearson x y.
Proof.
  intros Hlen Hx Hy n.
  assert (Hn : 0 < n) by (apply lt_0_INR, Sxx_nonzero_length; exact Hx).
  pose proof (Sxx_nonneg x) as Hx0. pose proof (Sxx_nonneg y) as Hy0.
  assert (Hsqrt : sqrt (Stat.Sxx x / n * (Stat.Sxx y / n))
                  = sqrt (Stat.Sxx x * Stat.Sxx y) / n).
  { replace (Stat.Sxx x / n * (Stat.Sxx y / n))
      with ((Stat.Sxx x * Stat.Sxx y) * (/ n * / n)) by (field; lra).
    rewrite sqrt_mult_alt by nra.
    rewrite sqrt_square by (left; apply Rinv_0_lt_compat; exact Hn).
    reflexivity. }
  rewrite Hsqrt.
  assert (Hs : 0 < sqrt (Stat.Sxx x * Stat.Sxx y)).
  { apply sqrt_lt_R0. apply Rmult_lt_0_compat; lra. }
  replace (Stat.Sxy x y / n / (sqrt (Stat.Sxx x * Stat.Sxx y) / n))
    with (Stat.pearson x y) by (unfold Stat.pearson; field; lra).
  apply clip_r_id, pearson_bounds. exact Hlen.
Qed.

(** [(1 - r^2) * Syy] is the residual sum of squares of the fitted line. *)
Lemma unexplained_is_SSres (x y : list R) :
  length x = length y -> Stat.Sxx x <> 0 -> Stat.Sxx y <> 0 ->
  (1 - Stat.pearson x y ^ 2) * Stat.Sxx y
  = Stat.SSres (Stat.ols_slope x y) (Stat.ols_intercept x y) x y.
Proof.
  intros Hlen Hx Hy. rewrite SSres_ols by assumption.
  rewrite pearson_sq by assumption. field. split; assumption.
Qed.

(** Past its guards, [linregress] is this computation on the deviation
    sums. *)
Lemma linregress_unfold (pol : Scipy.constant_policy) (x y : list R) :
  length x = length y -> (2 <= length x)%nat -> Stat.Sxx x <> 0 ->
  Scipy.linregress pol x y
  = (r <- (if Reqb (Stat.Sxx y / INR (length x)) 0
           then Scipy.degenerate_r pol (Stat.Sxy x y / INR (length x))
           else Ok (Scipy.clip_r
                      (Stat.Sxy x y / INR (length x)
                       / sqrt (Stat.Sxx x / INR (length x)
                               * (Stat.Sxx y / INR (length x)))))) ;;
     Ok {| Scipy.slope := Stat.ols_slope x y;
           Scipy.intercept := Stat.ols_intercept x y;
           Scipy.rvalue := r;
           Scipy.stderr :=
             if (length x =? 2)%nat then 0
             else sqrt ((1 - r ^ 2) * (Stat.Sxx y / INR (length x))
                        / (Stat.Sxx x / INR (length x))
                        / INR (length x - 2)) |}).
Proof.
  intros Hlen Hn Hx. unfold Scipy.linregress.
  replace (length x =? 0)%nat with false by (symmetry; apply Nat.eqb_neq; lia).
  replace (length y =? 0)%nat with false by (symmetry; apply Nat.eqb_neq; lia).
  cbn [orb].
  rewrite (Reqb_false (Np.amax x) (Np.amin x)) by (apply Sxx_nonzero_amax; exact Hx).
  cbn [andb]. rewrite <- Hlen, Nat.eqb_refl. cbn [negb].
  rewrite cov_bias1_spec. cbv beta iota zeta.
  assert (HnR : 0 < INR (length x)) by (apply lt_0_INR; lia).
  assert (Hxn : Stat.Sxx x / INR (length x) <> 0)
    by (apply div_INR_nonzero; [lia | exact Hx]).
  rewrite (Reqb_false _ _ Hxn). cbn [orb].
  unfold Np.fdiv. rewrite (Reqb_false _ _ Hxn).
  assert (Hslope : Stat.Sxy x y / INR (length x) / (Stat.Sxx x / INR (length x))
                   = Stat.ols_slope x y) by (unfold Stat.ols_slope; field; lra).
  rewrite Hslope. reflexivity.
Qed.

Lemma linregress_ok (pol : Scipy.constant_policy) (x y : list R) :
  length x = length y -> (2 <= length x)%nat ->
  Stat.Sxx x <> 0 -> Stat.Sxx y <> 0 ->
  Scipy.linregress pol x y = Ok (closed_fit x y).
Proof.
  intros Hlen Hn Hx Hy. rewrite linregress_unfold by assumption.
  assert (HnR : 0 < INR (length x)) by (apply lt_0_INR; lia).
  rewrite (Reqb_false (Stat.Sxx y / INR (length x)) 0)
    by (apply div_INR_nonzero; [lia | exact Hy]).
  rewrite (rvalue_computed x y Hlen Hx Hy). cbn [bind].
  unfold closed_fit. f_equal. f_equal.
  destruct (length x =? 2)%nat eqn:E2; [reflexivity|].
  apply Nat.eqb_neq in E2.
  f_equal.
  rewrite <- (unexplained_is_SSres x y Hlen Hx Hy).
  rewrite minus_INR by lia. simpl (INR 2).
  assert (Hdf : INR (length x) - (1 + 1) <> 0).
  { assert (3 <= length x)%nat as H3 by lia. apply le_INR in H3.
    simpl in H3. lra. }
  field. repeat split; lra.
Qed.

(** ** The hard-coded series, evaluated *)

Ltac eval_arr :=
  cbv [Np.mean Np.sum Np.asfloat Stat.Sxx Stat.Sxy Stat.SSres
       Chart8.years_hist Chart8.revenue_h Chart8.expenses_h Chart8.net_debt_h
       Chart8.years_proj map combine fold_right length fst snd INR].

Abbreviation years := (Np.asfloat Chart8.years_hist).
Abbreviation revenue := (Np.asfloat Chart8.revenue_h).
Abbreviation expenses := (Np.asfloat Chart8.expenses_h).
Abbreviation net_debt := (Np.asfloat Chart8.net_debt_h).

Lemma mean_years : Np.mean years = 4043 / 2.
Proof. eval_arr. lra. Qed.

Lemma mean_revenue : Np.mean revenue = 89627 / 6.
Proof. eval_arr. lra. Qed.

Lemma mean_expenses : Np.mean expenses = 28287 / 2.
Proof. eval_arr. lra. Qed.

Lemma mean_net_debt : Np.mean net_debt = 46307 / 6.
Proof. eval_arr. lra. Qed.

Lemma Sxx_years : Stat.Sxx years = 35 / 2.
Proof. unfold Stat.Sxx. rewrite mean_years. eval_arr. lra. Qed.

Lemma Sxx_revenue : Stat.Sxx revenue = 124051445 / 6.
Proof. unfold Stat.Sxx. rewrite mean_revenue. eval_arr. lra. Qed.

Lemma Sxx_expenses : Stat.Sxx expenses = 16701335 / 2.
Proof. unfold Stat.Sxx. rewrite mean_expenses. eval_arr. lra. Qed.

Lemma Sxx_net_debt : Stat.Sxx net_debt = 99592325 / 6.
Proof. unfold Stat.Sxx. rewrite mean_net_debt. eval_arr. lra. Qed.

Lemma Sxy_years_revenue : Stat.Sxy years revenue = 36285 / 2.
Proof. unfold Stat.Sxy. rewrite mean_years, mean_revenue. eval_arr. lra. Qed.

Lemma Sxy_years_net_debt : Stat.Sxy years net_debt = 33731 / 2.
Proof. unfold Stat.Sxy. rewrite mean_years, mean_net_debt. eval_arr. lra. Qed.

Lemma Sxy_revenue_expenses : Stat.Sxy revenue expenses = 26114945 / 2.
Proof. unfold Stat.Sxy. rewrite mean_revenue, mean_expenses. eval_arr. lra. Qed.

Lemma cagr_revenue :
  Chart8.cagr (IZR (nth 0 Chart8.revenue_h 0%Z)) (IZR (last Chart8.revenue_h 0%Z)) 5
  = Ok (Rpower (18202 / 13200) (1 / 5) - 1).
Proof.
  change (nth 0 Chart8.revenue_h 0%Z) with 13200%Z.
  change (last Chart8.revenue_h 0%Z) with 18202%Z.
  unfold Chart8.cagr, Np.fdiv, py_inv.
  rewrite (Reqb_false 13200 0) by lra.
  change (5 =? 0)%Z with false. cbn [bind].
  unfold Np.power. rewrite (Rltb_true 0 (18202 / 13200)) by lra.
  reflexivity.
Qed.

(** The script runs to completion on its data, whichever release of the
    library it is run with. *)
Lemma run_ok (pol : Scipy.constant_policy) : Chart8.run pol = Ok run_values.
Proof.
  unfold Chart8.run.
  rewrite (linregress_ok pol years revenue);
    [| reflexivity | cbn; lia | rewrite Sxx_years; lra | rewrite Sxx_revenue; lra].
  cbn [bind]. rewrite cagr_revenue. cbn [bind].
  rewrite (linregress_ok pol years expenses);
    [| reflexivity | cbn; lia | rewrite Sxx_years; lra | rewrite Sxx_expenses; lra].
  cbn [bind].
  rewrite (linregress_ok pol revenue expenses);
    [| reflexivity | cbn; lia | rewrite Sxx_revenue; lra | rewrite Sxx_expenses; lra].
  cbn [bind].
  rewrite (linregress_ok pol years net_debt);
    [| reflexivity | cbn; lia | rewrite Sxx_years; lra | rewrite Sxx_net_debt; lra].
  reflexivity.
Qed.

(** ** The forecast band of panel 8a *)

Lemma ci_at_half_width (se : R) (hist : list R) (p : R) :
  Chart8.ci_at se hist p
  = Stat.half_width se (length hist) (Np.mean hist) (Stat.Sxx hist) p.
Proof. reflexivity. Qed.

Lemma inv_INR_nonneg (n : nat) : 0 <= 1 / INR n.
Proof.
  destruct n as [|n].
  - simpl. unfold Rdiv. rewrite Rinv_0. lra.
  - apply Rlt_le, Rdiv_lt_0_compat; [lra | apply lt_0_INR; lia].
Qed.

Lemma sq_div_nonneg (d s : R) : 0 < s -> 0 <= d ^ 2 / s.
Proof.
  intros Hs. pose proof (pow2_ge_0 d).
  apply Rmult_le_pos; [lra | apply Rlt_le, Rinv_0_lt_compat; exact Hs].
Qed.

(** The factor under the square root is at least one. *)
Lemma spread_ge_1 (hist : list R) (p : R) :
  0 < Stat.Sxx hist -> 1 <= Chart8.spread hist p.
Proof.
  intros Hs. unfold Chart8.spread.
  pose proof (inv_INR_nonneg (length hist)).
  pose proof (sq_div_nonneg (p - Np.mean hist) _ Hs) as Hd.
  unfold Stat.Sxx in Hd. lra.
Qed.

Lemma sqrt_spread_ge_1 (hist : list R) (p : R) :
  0 < Stat.Sxx hist -> 1 <= sqrt (Chart8.spread hist p).
Proof.
  intros Hs. rewrite <- sqrt_1 at 1.
  apply sqrt_le_1_alt, spread_ge_1. exact Hs.
Qed.

Lemma half_width_strict_mono (se : R) (n : nat) (xbar sxx p1 p2 : R) :
  0 < se -> 0 < sxx ->
  Rabs (p1 - xbar) < Rabs (p2 - xbar) ->
  Stat.half_width se n xbar sxx p1 < Stat.half_width se n xbar sxx p2.
Proof.
  intros Hse Hs Hd. unfold Stat.half_width.
  apply Rmult_lt_compat_l; [lra|].
  apply Rsqr_lt_abs_1 in Hd. unfold Rsqr in Hd.
  pose proof (inv_INR_nonneg n) as Hn.
  pose proof (sq_div_nonneg (p1 - xbar) sxx Hs) as H1.
  apply sqrt_lt_1_alt. split; [lra|].
  apply Rplus_lt_compat_l.
  unfold Rdiv. apply Rmult_lt_compat_r; [apply Rinv_0_lt_compat; exact Hs|].
  simpl. lra.
Qed.

Lemma stderr_closed_nonneg (x y : list R) : 0 <= Scipy.stderr (closed_fit x y).
Proof.
  unfold closed_fit. cbn [Scipy.stderr].
  destruct (length x =? 2)%nat; [lra | apply sqrt_pos].
Qed.

Lemma sub_add_cancel (a c : list R) :
  length a = length c -> Np.sub (Np.add a c) a = c.
Proof.
  revert c. induction a as [|u a IH]; intros [|w c] H; simpl in H;
    try discriminate; [reflexivity|].
  unfold Np.sub, Np.add in *. cbn [Np.map2]. rewrite IH by lia.
  f_equal. ring.
Qed.

Lemma sub_sub_cancel (a c : list R) :
  length a = length c -> Np.sub a (Np.sub a c) = c.
Proof.
  revert c. induction a as [|u a IH]; intros [|w c] H; simpl in H;
    try discriminate; [reflexivity|].
  unfold Np.sub in *. cbn [Np.map2]. rewrite IH by lia.
  f_equal. ring.
Qed.

Lemma div_scalar_sub (a b : list R) (c : R) :
  Np.sub (Np.div_scalar a c) (Np.div_scalar b c) = Np.div_scalar (Np.sub a b) c.
Proof.
  revert b. induction a as [|u a IH]; intros [|w b]; try reflexivity.
  unfold Np.sub, Np.div_scalar in *. cbn [Np.map2 map]. rewrite IH.
  f_equal. unfold Rdiv. ring.
Qed.

(** C4: with the fit held fixed ([se > 0], [Sxx > 0]), the half-width
    [1.96 * se * sqrt (1 + 1/n + (p - mean)^2 / Sxx)] that line 801
    computes is strictly larger at a requested period that lies further
    from the mean historical period. *)
Theorem C4_half_width_strictly_increasing (se : R) (hist : list R) (p1 p2 : R) :
  0 < se -> 0 < Stat.Sxx hist ->
  Rabs (p1 - Np.mean hist) < Rabs (p2 - Np.mean hist) ->
  Chart8.ci_at se hist p1 < Chart8.ci_at se hist p2.
Proof.
  intros Hse Hs Hd. rewrite !ci_at_half_width.
  apply half_width_strict_mono; assumption.
Qed.

Lemma C4_witness :
  Chart8.ci_at 1 (Np.asfloat Chart8.years_hist) 2025
  < Chart8.ci_at 1 (Np.asfloat Chart8.years_hist) 2026.
Proof.
  apply C4_half_width_strictly_increasing.
  - lra.
  - rewrite Sxx_years. lra.
  - rewrite mean_years, !Rabs_pos_eq by lra. lra.
Defined.


(** ** Coefficient of determination and correlation *)

Lemma lt_div_r (a b c : R) : 0 < c -> a * c < b -> a < b / c.
Proof.
  intros Hc H. apply (Rmult_lt_reg_r c); [exact Hc|].
  replace (b / c * c) with b by (field; lra). exact H.
Qed.

(** C5: for every valid fit (at least two points, non-zero [Sxx] and
    [SStot]) the reported R^2, the square of the correlation returned by
    [linregress], equals [1 - sum (y - yhat)^2 / sum (y - ybar)^2] with
    [yhat = slope * x + intercept] rebuilt from the reported slope and
    intercept; in particular the two agree within 1e-9. *)
Theorem C5_r_squared_matches_residuals
    (pol : Scipy.constant_policy) (x y : list R) :
  length x = length y -> (2 <= length x)%nat ->
  Stat.Sxx x <> 0 -> Stat.Sxx y <> 0 ->
  exists res, Scipy.linregress pol x y = Ok res /\
    Scipy.rvalue res ^ 2
      = Stat.r_squared (Scipy.slope res) (Scipy.intercept res) x y /\
    approx 1e-9 (Scipy.rvalue res ^ 2)
      (Stat.r_squared (Scipy.slope res) (Scipy.intercept res) x y).
Proof.
  intros Hlen Hn Hx Hy. exists (closed_fit x y).
  split; [apply linregress_ok; assumption|].
  assert (Heq : Scipy.rvalue (closed_fit x y) ^ 2
                = Stat.r_squared (Scipy.slope (closed_fit x y))
                                 (Scipy.intercept (closed_fit x y)) x y).
  { change (Scipy.rvalue (closed_fit x y)) with (Stat.pearson x y).
    rewrite pearson_sq by assumption.
    unfold closed_fit, Stat.r_squared. cbn [Scipy.slope Scipy.intercept].
    rewrite SSres_ols by assumption. field. split; assumption. }
  split; [exact Heq|].
  unfold approx. rewrite Heq, Rminus_diag, Rabs_R0. lra.
Qed.

Lemma C5_witness :
  exists res, Scipy.linregress Scipy.NanOnConstant years revenue = Ok res /\
    Scipy.rvalue res ^ 2
      = Stat.r_squared (Scipy.slope res) (Scipy.intercept res) years revenue /\
    approx 1e-9 (Scipy.rvalue res ^ 2)
      (Stat.r_squared (Scipy.slope res) (Scipy.intercept res) years revenue).
Proof.
  apply C5_r_squared_matches_residuals.
  - reflexivity.
  - cbn. lia.
  - rewrite Sxx_years. lra.
  - rewrite Sxx_revenue. lra.
Defined.

(** C6: correlating the revenue series with the expense series (the
    regression is on the revenue values, not on the years) gives a
    Pearson r that equals the closed form [Sxy / sqrt (Sxx * Syy)] of the
    two arrays and is strictly greater than 0.9. *)
Theorem C6_revenue_expense_correlation (pol : Scipy.constant_policy) :
  exists v, Chart8.run pol = Ok v /\
    Scipy.linregress pol revenue expenses = Ok (Chart8.fit_re v) /\
    Scipy.rvalue (Chart8.fit_re v) = Stat.pearson revenue expenses /\
    0.9 < Scipy.rvalue (Chart8.fit_re v).
Proof.
  exists run_values. split; [exact (run_ok pol)|].
  cbn [run_values Chart8.fit_re].
  split.
  { apply linregress_ok;
      [reflexivity | cbn; lia | rewrite Sxx_revenue; lra | rewrite Sxx_expenses; lra]. }
  assert (Hr : Scipy.rvalue (closed_fit revenue expenses) = Stat.pearson revenue expenses).
  { reflexivity. }
  split; [exact Hr|]. rewrite Hr.
  unfold Stat.pearson. rewrite Sxy_revenue_expenses, Sxx_revenue, Sxx_expenses.
  set (s := 124051445 / 6 * (16701335 / 2)).
  set (t := 26114945 / 2 / 0.9).
  assert (Hs : 0 < s) by (unfold s; lra).
  assert (Hlt : sqrt s < t).
  { rewrite <- (sqrt_square t) by (unfold t; lra).
    apply sqrt_lt_1_alt. unfold s, t. lra. }
  assert (Hq : 0 < sqrt s) by (apply sqrt_lt_R0; exact Hs).
  apply lt_div_r; [exact Hq|].
  unfold t in Hlt. lra.
Qed.

(** ** Growth rate *)

(** [a ** (1/n)] is the positive n-th root of a positive [a]. *)
Lemma Rpower_root_pow (a : R) (n : nat) :
  0 < a -> (0 < n)%nat -> Rpower a (1 / INR n) ^ n = a.
Proof.
  intros Ha Hn.
  rewrite <- Rpower_pow by apply exp_pos.
  rewrite Rpower_mult.
  replace (1 / INR n * INR n) with 1
    by (field; apply not_0_INR; lia).
  apply Rpower_1. exact Ha.
Qed.

Lemma root_bounds (a lo hi : R) (n : nat) :
  0 < a -> (0 < n)%nat -> 0 <= lo -> 0 <= hi ->
  lo ^ n < a -> a < hi ^ n ->
  lo < Rpower a (1 / INR n) < hi.
Proof.
  intros Ha Hn Hlo Hhi Hl Hu.
  pose proof (Rpower_root_pow a n Ha Hn) as Hc.
  assert (Hpos : 0 < Rpower a (1 / INR n)) by apply exp_pos.
  split.
  - apply Rnot_le_lt. intros Hle.
    pose proof (pow_incr (Rpower a (1 / INR n)) lo n (conj (Rlt_le _ _ Hpos) Hle)).
    lra.
  - apply Rnot_le_lt. intros Hle.
    pose proof (pow_incr hi (Rpower a (1 / INR n)) n (conj Hhi Hle)).
    lra.
Qed.

Lemma slope_revenue : Scipy.slope (closed_fit years revenue) = 7257 / 7.
Proof.
  unfold closed_fit. cbn [Scipy.slope]. unfold Stat.ols_slope.
  rewrite Sxy_years_revenue, Sxx_years. lra.
Qed.

Lemma cagr_revenue_bounds :
  0.06635 < Rpower (18202 / 13200) (1 / 5) - 1 < 0.06645.
Proof.
  destruct (root_bounds (18202 / 13200) 1.06635 1.06645 5) as [H1 H2];
    try lra; try lia.
  change (INR 5) with (1 + 1 + 1 + 1 + 1) in H1, H2.
  replace (1 + 1 + 1 + 1 + 1) with 5 in H1, H2 by lra.
  lra.
Qed.

(** C7 as stated fails: the growth rate of the revenue series is not 0.0657,
    not even to within 0.0005. *)
Lemma C7_cagr_is_not_6_57_percent :
  ~ (exists pol v, Chart8.run pol = Ok v /\
       0 < Scipy.slope (Chart8.fit_r v) /\
       Chart8.cagr_r v = Rpower (18202 / 13200) (1 / 5) - 1 /\
       approx 0.0005 (Chart8.cagr_r v) 0.0657).
Proof.
  intros [pol [v [Hrun [_ [_ Happ]]]]].
  rewrite run_ok in Hrun. injection Hrun as <-.
  cbn [run_values Chart8.cagr_r] in Happ.
  pose proof cagr_revenue_bounds as [Hlo _].
  unfold approx in Happ. rewrite Rabs_pos_eq in Happ by lra. lra.
Qed.

(** C7 (amended): the least-squares slope of revenue against the years is
    strictly positive, and the growth rate is
    [(18202/13200)^(1/5) - 1], which is 0.0664 to four decimals (6.64%);
    5 is the elapsed span 2024 - 2019. *)
Theorem C7_revenue_slope_and_cagr (pol : Scipy.constant_policy) :
  exists v, Chart8.run pol = Ok v /\
    0 < Scipy.slope (Chart8.fit_r v) /\
    Chart8.cagr (IZR (nth 0 Chart8.revenue_h 0%Z)) (IZR (last Chart8.revenue_h 0%Z))
                (last Chart8.years_hist 0 - nth 0 Chart8.years_hist 0)%Z
      = Ok (Chart8.cagr_r v) /\
    Chart8.cagr_r v = Rpower (18202 / 13200) (1 / 5) - 1 /\
    approx 0.00005 (Chart8.cagr_r v) 0.0664.
Proof.
  exists run_values. split; [exact (run_ok pol)|].
  cbn [run_values Chart8.cagr_r Chart8.fit_r].
  split; [rewrite slope_revenue; lra|].
  split; [exact cagr_revenue|].
  split; [reflexivity|].
  pose proof cagr_revenue_bounds as [Hlo Hhi].
  unfold approx. apply Rabs_le. lra.
Qed.

(** C8 as stated fails: a series may end on a negative value, and then the
    fractional power is not a number. *)
Lemma C8_negative_end_value :
  Chart8.cagr 100 (-50) 2 = NonFinite /\
  ~ (exists c, Chart8.cagr 100 (-50) 2 = Ok c /\ 100 * (1 + c) ^ 2 = -50).
Proof.
  assert (H : Chart8.cagr 100 (-50) 2 = NonFinite).
  { unfold Chart8.cagr, Np.fdiv, py_inv.
    rewrite (Reqb_false 100 0) by lra.
    change (2 =? 0)%Z with false. cbn [bind].
    unfold Np.power.
    rewrite (Rltb_false 0 (-50 / 100)) by lra.
    rewrite (Reqb_false (-50 / 100) 0) by lra.
    rewrite (Reqb_false (1 / 2)).
    - reflexivity.
    - intros Heq.
      assert (H1 : IZR 1 = IZR (2 * Int_part (1 / 2))).
      { rewrite mult_IZR, <- Heq. lra. }
      apply eq_IZR in H1. lia. }
  split; [exact H|]. intros [c [Hc _]]. rewrite H in Hc. discriminate.
Qed.

(** C8 (amended): for a first value [v0 > 0], a last value [vn >= 0] and an
    elapsed span [n > 0], the growth rate [(vn/v0)^(1/n) - 1] is computed
    and satisfies [v0 * (1 + cagr)^n = vn]. *)
Theorem C8_cagr_round_trip (v0 vn : R) (n : Z) :
  0 < v0 -> 0 <= vn -> (0 < n)%Z ->
  exists c, Chart8.cagr v0 vn n = Ok c /\ v0 * (1 + c) ^ Z.to_nat n = vn.
Proof.
  intros Hv0 Hvn Hn.
  assert (HnR : IZR n = INR (Z.to_nat n)).
  { rewrite INR_IZR_INZ, Z2Nat.id by lia. reflexivity. }
  assert (Hnat : (0 < Z.to_nat n)%nat) by lia.
  unfold Chart8.cagr, Np.fdiv, py_inv.
  rewrite (Reqb_false v0 0) by lra.
  replace (n =? 0)%Z with false by (symmetry; apply Z.eqb_neq; lia).
  cbn [bind]. unfold Np.power.
  destruct Hvn as [Hpos|Hzero].
  - assert (Hq : 0 < vn / v0) by (apply Rdiv_lt_0_compat; assumption).
    rewrite (Rltb_true 0 (vn / v0) Hq). cbn [bind].
    eexists. split; [reflexivity|].
    replace (1 + (Rpower (vn / v0) (1 / IZR n) - 1))
      with (Rpower (vn / v0) (1 / IZR n)) by ring.
    rewrite HnR, Rpower_root_pow by assumption. field. lra.
  - subst vn.
    assert (Hq : 0 / v0 = 0) by (unfold Rdiv; ring). rewrite Hq.
    rewrite (Rltb_false 0 0) by lra. rewrite (Reqb_true 0 0) by reflexivity.
    rewrite (Rltb_true 0 (1 / IZR n)).
    2:{ apply Rdiv_lt_0_compat; [lra | apply IZR_lt; exact Hn]. }
    cbn [bind]. eexists. split; [reflexivity|].
    replace (1 + (0 - 1)) with 0 by ring.
    rewrite pow_i by exact Hnat. ring.
Qed.

Lemma C8_witness :
  exists c, Chart8.cagr 13200 18202 5 = Ok c /\
            13200 * (1 + c) ^ Z.to_nat 5 = 18202.
Proof.
  apply C8_cagr_round_trip; [lra | lra | lia].
Defined.

(** ** Linearity of the fit in the response *)

Lemma length_sub (a b : list R) :
  length a = length b -> length (Np.sub a b) = length a.
Proof.
  revert b. induction a as [|u a IH]; intros [|w b] H; simpl in H;
    try discriminate; [reflexivity|].
  unfold Np.sub in *. cbn [Np.map2 length]. rewrite IH by lia. reflexivity.
Qed.

Lemma sum_sub (a b : list R) :
  length a = length b -> Np.sum (Np.sub a b) = Np.sum a - Np.sum b.
Proof.
  revert b. induction a as [|u a IH]; intros [|w b] H; simpl in H;
    try discriminate; [simpl; ring|].
  unfold Np.sub in *. cbn [Np.map2]. rewrite !sum_cons, IH by lia. ring.
Qed.

Lemma mean_sub (a b : list R) :
  length a = length b -> Np.mean (Np.sub a b) = Np.mean a - Np.mean b.
Proof.
  intros H. unfold Np.mean.
  rewrite sum_sub, length_sub, <- H by exact H. unfold Rdiv. ring.
Qed.

Lemma cross_sum_sub (mx ma mb : R) (x a b : list R) :
  length x = length a -> length x = length b ->
  Np.sum (map (fun p => (fst p - mx) * (snd p - (ma - mb))) (combine x (Np.sub a b)))
  = Np.sum (map (fun p => (fst p - mx) * (snd p - ma)) (combine x a))
    - Np.sum (map (fun p => (fst p - mx) * (snd p - mb)) (combine x b)).
Proof.
  revert a b. induction x as [|u x IH]; intros [|v a] [|w b] Ha Hb;
    simpl in Ha, Hb; try discriminate; [simpl; ring|].
  unfold Np.sub in *. cbn [Np.map2 combine map fst snd].
  rewrite !sum_cons, IH by lia. ring.
Qed.

Lemma Sxy_sub (x a b : list R) :
  length x = length a -> length x = length b ->
  Stat.Sxy x (Np.sub a b) = Stat.Sxy x a - Stat.Sxy x b.
Proof.
  intros Ha Hb. unfold Stat.Sxy.
  rewrite mean_sub by congruence. apply cross_sum_sub; assumption.
Qed.

Lemma ols_slope_sub (x a b : list R) :
  length x = length a -> length x = length b ->
  Stat.ols_slope x (Np.sub a b) = Stat.ols_slope x a - Stat.ols_slope x b.
Proof.
  intros Ha Hb. unfold Stat.ols_slope. rewrite Sxy_sub by assumption.
  unfold Rdiv. ring.
Qed.

Lemma ols_intercept_sub (x a b : list R) :
  length x = length a -> length x = length b ->
  Stat.ols_intercept x (Np.sub a b)
  = Stat.ols_intercept x a - Stat.ols_intercept x b.
Proof.
  intros Ha Hb. unfold Stat.ols_intercept.
  rewrite ols_slope_sub, mean_sub by congruence. ring.
Qed.

(** Projecting the fit of a difference is the difference of the
    projections. *)
Lemma project_sub (x a b periods : list R) :
  length x = length a -> length x = length b ->
  Chart8.project (closed_fit x (Np.sub a b)) periods
  = Np.sub (Chart8.project (closed_fit x a) periods)
           (Chart8.project (closed_fit x b) periods).
Proof.
  intros Ha Hb. unfold Chart8.project, closed_fit.
  cbn [Scipy.slope Scipy.intercept].
  rewrite ols_slope_sub, ols_intercept_sub by assumption.
  induction periods as [|p periods IH]; [reflexivity|].
  unfold Np.sub in *. cbn [map Np.map2]. rewrite IH. f_equal. ring.
Qed.

Lemma asfloat_sub (a b : list Z) :
  Np.asfloat (Np.map2 Z.sub a b) = Np.sub (Np.asfloat a) (Np.asfloat b).
Proof.
  revert b. induction a as [|u a IH]; intros [|w b]; try reflexivity.
  unfold Np.asfloat, Np.sub in *. cbn [Np.map2 map].
  rewrite IH, minus_IZR. reflexivity.
Qed.

Lemma surplus_values :
  Chart8.surplus_h = [400; -100; 300; 900; 1250; 2016]%Z.
Proof. reflexivity. Qed.

Lemma Sxx_surplus : Stat.Sxx (Np.asfloat Chart8.surplus_h) = 8732890 / 3.
Proof.
  rewrite surplus_values.
  assert (Hm : Np.mean (Np.asfloat [400; -100; 300; 900; 1250; 2016]%Z) = 2383 / 3)
    by (eval_arr; lra).
  unfold Stat.Sxx. rewrite Hm. eval_arr. lra.
Qed.

Lemma Sxy_years_surplus :
  Stat.Sxy years (Np.asfloat Chart8.surplus_h) = 6365.
Proof.
  rewrite surplus_values.
  assert (Hm : Np.mean (Np.asfloat [400; -100; 300; 900; 1250; 2016]%Z) = 2383 / 3)
    by (eval_arr; lra).
  unfold Stat.Sxy. rewrite Hm, mean_years. eval_arr. lra.
Qed.

Lemma mean_surplus : Np.mean (Np.asfloat Chart8.surplus_h) = 2383 / 3.
Proof. rewrite surplus_values. eval_arr. lra. Qed.

(** C9: for each projected year the surplus forecast the script computes,
    [rev_proj - exp_proj], equals the value at that year of the single
    least-squares line ([slope = Sxy / Sxx],
    [intercept = mean - slope * mean of the years]) fitted to
    [surplus_h = revenue_h - expenses_h] over the same years; the three
    forecasts are 43414/21, 51052/21 and 58690/21. *)
Theorem C9_surplus_projection_linear (pol : Scipy.constant_policy) :
  exists v, Chart8.run pol = Ok v /\
    length (Chart8.surplus_proj v) = length Chart8.years_proj /\
    Chart8.surplus_proj v = Stat.surplus_direct_proj /\
    Chart8.surplus_proj v = [43414 / 21; 51052 / 21; 58690 / 21].
Proof.
  exists run_values. split; [exact (run_ok pol)|].
  cbn [run_values Chart8.surplus_proj].
  split.
  { rewrite length_sub; unfold Chart8.project, Np.asfloat;
      rewrite !length_map; reflexivity. }
  assert (Heq : Np.sub (Chart8.project (closed_fit years revenue)
                                       (Np.asfloat Chart8.years_proj))
                       (Chart8.project (closed_fit years expenses)
                                       (Np.asfloat Chart8.years_proj))
                = Stat.surplus_direct_proj).
  { rewrite <- project_sub by reflexivity.
    unfold Stat.surplus_direct_proj, Chart8.surplus_h.
    rewrite asfloat_sub. reflexivity. }
  split; [exact Heq|]. rewrite Heq.
  unfold Stat.surplus_direct_proj, Stat.ols_line_at, Stat.ols_intercept,
    Stat.ols_slope.
  rewrite Sxy_years_surplus, Sxx_years, mean_surplus, mean_years.
  cbv [Np.asfloat Chart8.years_proj map].
  f_equal; [|f_equal; [|f_equal]]; lra.
Qed.

(** ** A constant series *)

Lemma Sxx_repeat (c : R) (n : nat) : Stat.Sxx (repeat c n) = 0.
Proof. apply (Sxx_all_equal _ c). intros u Hu. apply (repeat_spec _ _ _ Hu). Qed.

Lemma Sxy_zero_spread (x y : list R) :
  length x = length y -> Stat.Sxx y = 0 -> Stat.Sxy x y = 0.
Proof.
  intros Hlen Hy. pose proof (Sxy_sq_le x y Hlen) as H. rewrite Hy in H.
  pose proof (pow2_ge_0 (Stat.Sxy x y)) as Hp.
  assert (Hz : Stat.Sxy x y ^ 2 = 0) by lra.
  simpl in Hz. nra.
Qed.

(** On a constant response [linregress] raises nothing.  With the
    correlation defaulted to zero it returns the flat line through the
    constant; otherwise the result it returns holds a [nan] correlation. *)
Lemma linregress_constant (pol : Scipy.constant_policy) (x : list R) (c : R) :
  (2 <= length x)%nat -> Stat.Sxx x <> 0 ->
  Scipy.linregress pol x (repeat c (length x))
  = match pol with
    | Scipy.ZeroOnConstant =>
        Ok {| Scipy.slope := 0; Scipy.intercept := c;
              Scipy.rvalue := 0; Scipy.stderr := 0 |}
    | Scipy.NanOnConstant => NonFinite
    end.
Proof.
  intros Hn Hx.
  assert (Hlen : length x = length (repeat c (length x)))
    by (rewrite repeat_length; reflexivity).
  rewrite linregress_unfold by assumption.
  assert (Hy : Stat.Sxx (repeat c (length x)) = 0) by apply Sxx_repeat.
  assert (Hxy : Stat.Sxy x (repeat c (length x)) = 0)
    by (apply Sxy_zero_spread; assumption).
  rewrite Hy, Hxy.
  assert (Hz : 0 / INR (length x) = 0) by (unfold Rdiv; ring).
  rewrite Hz, (Reqb_true 0 0) by reflexivity.
  destruct pol; cbn [Scipy.degenerate_r bind].
  - assert (Hb : Stat.ols_slope x (repeat c (length x)) = 0).
    { unfold Stat.ols_slope. rewrite Hxy. unfold Rdiv. ring. }
    assert (Hm : Np.mean (repeat c (length x)) = c).
    { apply mean_all_equal.
      - destruct x; [simpl in Hn; lia | discriminate].
      - intros u Hu. apply (repeat_spec _ _ _ Hu). }
    assert (Ha : Stat.ols_intercept x (repeat c (length x)) = c).
    { unfold Stat.ols_intercept. rewrite Hb, Hm. ring. }
    rewrite Hb, Ha. f_equal. f_equal.
    destruct (length x =? 2)%nat; [reflexivity|].
    unfold Rdiv. rewrite Rmult_0_r, !Rmult_0_l. apply sqrt_0.
  - rewrite (Reqb_true 0 0) by reflexivity. reflexivity.
Qed.


(** The routine is the field-by-field one with a result that holds a
    [nan] or [inf] collapsed to [NonFinite]. *)
Lemma linregress_finite_fields (pol : Scipy.constant_policy) (x y : list R) :
  Scipy.linregress pol x y = Fields.finite (Fields.linregress pol x y).
Proof.
  unfold Scipy.linregress, Fields.linregress, Fields.finite.
  destruct ((length x =? 0) || (length y =? 0))%nat; [reflexivity|].
  destruct (Reqb (Np.amax x) (Np.amin x) && (1 <? length x)%nat); [reflexivity|].
  destruct (negb (length x =? length y)%nat); [reflexivity|].
  rewrite cov_bias1_spec. cbv beta iota zeta.
  cbn [bind Fields.rvalue Fields.slope Fields.intercept Fields.stderr].
  destruct (if Reqb (Stat.Sxx x / INR (length x)) 0
               || Reqb (Stat.Sxx y / INR (length x)) 0
            then Scipy.degenerate_r pol (Stat.Sxy x y / INR (length x))
            else Ok (Scipy.clip_r
                       (Stat.Sxy x y / INR (length x)
                        / sqrt (Stat.Sxx x / INR (length x)
                                * (Stat.Sxx y / INR (length x))))))
    as [rv|e|]; cbn [bind]; try reflexivity.
  unfold Np.fdiv.
  destruct (Reqb (Stat.Sxx x / INR (length x)) 0); cbn [bind];
    [reflexivity|].
  destruct (length x =? 2)%nat; reflexivity.
Qed.





(** ** Which standard error the bands use *)

(** The fifth value returned by [linregress] is the standard error of the
    slope: the standard error of the estimate divided by [sqrt Sxx]. *)
Lemma stderr_is_slope_error (x y : list R) :
  (3 <= length x)%nat -> 0 < Stat.Sxx x ->
  Scipy.stderr (closed_fit x y)
  = Stat.std_err_estimate (Scipy.slope (closed_fit x y))
                          (Scipy.intercept (closed_fit x y)) x y
    / sqrt (Stat.Sxx x).
Proof.
  intros Hn Hx. unfold closed_fit, Stat.std_err_estimate.
  cbn [Scipy.stderr Scipy.slope Scipy.intercept].
  replace (length x =? 2)%nat with false by (symmetry; apply Nat.eqb_neq; lia).
  apply sqrt_div_alt. exact Hx.
Qed.

Lemma SSres_revenue :
  Stat.SSres (Stat.ols_slope years revenue) (Stat.ols_intercept years revenue)
             years revenue = 39199690 / 21.
Proof.
  rewrite SSres_ols; [| reflexivity | rewrite Sxx_years; lra].
  rewrite Sxx_revenue, Sxy_years_revenue, Sxx_years. lra.
Qed.

Lemma SSres_net_debt :
  Stat.SSres (Stat.ols_slope years net_debt) (Stat.ols_intercept years net_debt)
             years net_debt = 36195146 / 105.
Proof.
  rewrite SSres_ols; [| reflexivity | rewrite Sxx_years; lra].
  rewrite Sxx_net_debt, Sxy_years_net_debt, Sxx_years. lra.
Qed.

Lemma Forall2_map_r {A B : Type} (P : A -> B -> Prop) (f : A -> B) (l : list A) :
  (forall a, P a (f a)) -> Forall2 P l (map f l).
Proof. intros H. induction l; constructor; auto. Qed.

Lemma sub_shift_up (k : R) (l : list R) :
  Np.sub (map (fun v => v + k) l) l = map (fun _ => k) l.
Proof.
  induction l as [|u l IH]; [reflexivity|].
  unfold Np.sub in *. cbn [map Np.map2]. rewrite IH. f_equal. ring.
Qed.

Lemma sub_shift_down (k : R) (l : list R) :
  Np.sub l (map (fun v => v - k) l) = map (fun _ => k) l.
Proof.
  induction l as [|u l IH]; [reflexivity|].
  unfold Np.sub in *. cbn [map Np.map2]. rewrite IH. f_equal. ring.
Qed.

(** C1, evaluated on the script's data: the point estimates are
    [slope * p + intercept], but the half-width of line 801 is built on the
    standard error of the slope, [se / sqrt Sxx] with
    [se = sqrt (SSres / (n - 2))], and so is strictly smaller at every
    projected year than the half-width built on [se] itself. *)
Theorem C1_revenue_half_width_uses_slope_error (pol : Scipy.constant_policy) :
  exists v, Chart8.run pol = Ok v /\
    let b := Scipy.slope (Chart8.fit_r v) in
    let a := Scipy.intercept (Chart8.fit_r v) in
    let se := Stat.std_err_estimate b a years revenue in
    let n := length years in
    let xbar := Np.mean years in
    let sxx := Stat.Sxx years in
    Chart8.rev_proj v
      = map (fun p => b * p + a) (Np.asfloat Chart8.years_proj) /\
    Scipy.stderr (Chart8.fit_r v) = se / sqrt sxx /\
    Chart8.ci_r v
      = map (Stat.half_width (se / sqrt sxx) n xbar sxx)
            (Np.asfloat Chart8.years_proj) /\
    Forall2 (fun p h => h < Stat.half_width se n xbar sxx p)
            (Np.asfloat Chart8.years_proj) (Chart8.ci_r v).
Proof.
  exists run_values. split; [exact (run_ok pol)|].
  cbn [run_values Chart8.fit_r Chart8.rev_proj Chart8.ci_r]. cbv zeta.
  assert (Hs : 0 < Stat.Sxx years) by (rewrite Sxx_years; lra).
  assert (Hse : Scipy.stderr (closed_fit years revenue)
                = Stat.std_err_estimate (Scipy.slope (closed_fit years revenue))
                    (Scipy.intercept (closed_fit years revenue)) years revenue
                  / sqrt (Stat.Sxx years)).
  { apply stderr_is_slope_error; [cbn; lia | exact Hs]. }
  split; [reflexivity|].
  split; [exact Hse|].
  split; [unfold Chart8.ci; rewrite Hse; reflexivity|].
  unfold Chart8.ci. apply Forall2_map_r. intros p.
  rewrite ci_at_half_width, Hse. unfold Stat.half_width.
  set (f := sqrt (1 + 1 / INR (length years) + (p - Np.mean years) ^ 2 / Stat.Sxx years)).
  assert (Hf : 1 <= f) by (apply (sqrt_spread_ge_1 years p Hs)).
  set (se := Stat.std_err_estimate _ _ _ _).
  assert (Hpos : 0 < se).
  { unfold se, Stat.std_err_estimate, closed_fit.
    cbn [Scipy.slope Scipy.intercept]. rewrite SSres_revenue.
    apply sqrt_lt_R0. change (length years) with 6%nat.
    cbv [INR]. lra. }
  assert (Hroot : 1 < sqrt (Stat.Sxx years)).
  { rewrite <- sqrt_1 at 1. apply sqrt_lt_1_alt. rewrite Sxx_years. lra. }
  assert (Hlt : se / sqrt (Stat.Sxx years) < se).
  { apply (Rmult_lt_reg_r (sqrt (Stat.Sxx years))); [lra|].
    replace (se / sqrt (Stat.Sxx years) * sqrt (Stat.Sxx years)) with se
      by (field; lra).
    nra. }
  apply Rmult_lt_compat_r; [lra|]. lra.
Qed.

(** C2, evaluated on the script's data: the revenue and expense bands are
    built with the multiplier 1.96, the net-debt band with 1.5, and the
    net-debt half-width is strictly smaller than [1.96 * se_nd]. *)
Theorem C2_net_debt_band_uses_1_5 (pol : Scipy.constant_policy) :
  exists v, Chart8.run pol = Ok v /\
    let proj := Np.asfloat Chart8.years_proj in
    Chart8.ci_r v
      = map (fun p => 1.96 * Scipy.stderr (Chart8.fit_r v)
                      * sqrt (Chart8.spread years p)) proj /\
    Np.sub (Chart8.exp_hi v) (Chart8.exp_proj v)
      = map (fun _ => 1.96 * Scipy.stderr (Chart8.fit_e v)) proj /\
    Np.sub (Chart8.exp_proj v) (Chart8.exp_lo v)
      = map (fun _ => 1.96 * Scipy.stderr (Chart8.fit_e v)) proj /\
    Np.sub (Chart8.nd_hi v) (Chart8.nd_proj v)
      = map (fun _ => 1.5 * Scipy.stderr (Chart8.fit_nd v)) proj /\
    Np.sub (Chart8.nd_proj v) (Chart8.nd_lo v)
      = map (fun _ => 1.5 * Scipy.stderr (Chart8.fit_nd v)) proj /\
    1.5 * Scipy.stderr (Chart8.fit_nd v) < 1.96 * Scipy.stderr (Chart8.fit_nd v).
Proof.
  exists run_values. split; [exact (run_ok pol)|].
  cbn [run_values Chart8.fit_r Chart8.ci_r Chart8.exp_hi Chart8.exp_lo
       Chart8.exp_proj Chart8.fit_e Chart8.nd_hi Chart8.nd_lo Chart8.nd_proj
       Chart8.fit_nd]. cbv zeta.
  split; [reflexivity|].
  unfold Chart8.project.
  split; [rewrite sub_shift_up, map_map; reflexivity|].
  split; [rewrite sub_shift_down, map_map; reflexivity|].
  split; [rewrite sub_shift_up, map_map; reflexivity|].
  split; [rewrite sub_shift_down, map_map; reflexivity|].
  assert (Hpos : 0 < Scipy.stderr (closed_fit years net_debt)).
  { unfold closed_fit. cbn [Scipy.stderr].
    change (length years) with 6%nat. cbn [Nat.eqb].
    rewrite SSres_net_debt, Sxx_years.
    apply sqrt_lt_R0. cbv [INR]. lra. }
  lra.
Qed.

(** C10, evaluated on the script's data: for every projected year the
    revenue band is symmetric about the point estimate (upper minus point
    = point minus lower = [ci], also after the division by 1000 used for
    drawing), and the factor under the square root is at least one; but
    [ci] is built on the standard error of the slope, so it reaches
    [1.96 * se_r] only for that value, and stays strictly below
    [1.96 * se] for the standard error of the estimate
    [se = sqrt (SSres / (n - 2))]. *)
Theorem C10_revenue_band_symmetric_below_noise (pol : Scipy.constant_policy) :
  exists v, Chart8.run pol = Ok v /\
    let se := Stat.std_err_estimate (Scipy.slope (Chart8.fit_r v))
                (Scipy.intercept (Chart8.fit_r v)) years revenue in
    length (Chart8.ci_r v) = length Chart8.years_proj /\
    Np.sub (Chart8.rev_hi v) (Chart8.rev_proj v) = Chart8.ci_r v /\
    Np.sub (Chart8.rev_proj v) (Chart8.rev_lo v) = Chart8.ci_r v /\
    Np.sub (Chart8.plot (Chart8.rev_hi v)) (Chart8.plot (Chart8.rev_proj v))
      = Chart8.plot (Chart8.ci_r v) /\
    Np.sub (Chart8.plot (Chart8.rev_proj v)) (Chart8.plot (Chart8.rev_lo v))
      = Chart8.plot (Chart8.ci_r v) /\
    Forall (fun p => 1 <= sqrt (Chart8.spread years p))
           (Np.asfloat Chart8.years_proj) /\
    Forall (fun h => 1.96 * Scipy.stderr (Chart8.fit_r v) <= h) (Chart8.ci_r v) /\
    Forall (fun h => h < 1.96 * se) (Chart8.ci_r v).
Proof.
  exists run_values. split; [exact (run_ok pol)|].
  assert (Hs : 0 < Stat.Sxx years) by (rewrite Sxx_years; lra).
  cbn [run_values Chart8.ci_r Chart8.rev_hi Chart8.rev_lo Chart8.rev_proj
       Chart8.fit_r]. cbv zeta.
  assert (Hlen : length (Chart8.project (closed_fit years revenue) (Np.asfloat Chart8.years_proj))
                 = length (Chart8.ci (Scipy.stderr (closed_fit years revenue)) years
                                     (Np.asfloat Chart8.years_proj))).
  { unfold Chart8.project, Chart8.ci. rewrite !length_map. reflexivity. }
  split; [unfold Chart8.ci, Np.asfloat; rewrite !length_map; reflexivity|].
  split; [apply sub_add_cancel; exact Hlen|].
  split; [apply sub_sub_cancel; exact Hlen|].
  unfold Chart8.plot. rewrite !div_scalar_sub.
  split; [rewrite sub_add_cancel by exact Hlen; reflexivity|].
  split; [rewrite sub_sub_cancel by exact Hlen; reflexivity|].
  split; [|split].
  - apply Forall_forall. intros p _. apply sqrt_spread_ge_1. exact Hs.
  - unfold Chart8.ci. apply Forall_forall. intros h Hin.
    apply in_map_iff in Hin. destruct Hin as [p [<- _]].
    unfold Chart8.ci_at.
    pose proof (stderr_closed_nonneg years revenue) as Hse.
    pose proof (sqrt_spread_ge_1 years p Hs) as Hf.
    nra.
  - rewrite stderr_is_slope_error by (cbn; lia || exact Hs).
    set (se := Stat.std_err_estimate _ _ _ _).
    assert (Hpos : 0 < se).
    { unfold se, Stat.std_err_estimate, closed_fit.
      cbn [Scipy.slope Scipy.intercept]. rewrite SSres_revenue.
      apply sqrt_lt_R0. change (length years) with 6%nat.
      cbv [INR]. lra. }
    assert (Hroot : 0 < sqrt (Stat.Sxx years)) by (apply sqrt_lt_R0; exact Hs).
    unfold Chart8.ci. apply Forall_forall. intros h Hin.
    apply in_map_iff in Hin. destruct Hin as [p [<- Hp]].
    unfold Chart8.ci_at.
    assert (Hf : sqrt (Chart8.spread years p) < sqrt (Stat.Sxx years)).
    { apply sqrt_lt_1_alt. split.
      - pose proof (spread_ge_1 years p Hs). lra.
      - unfold Chart8.spread. fold (Stat.Sxx years).
        rewrite mean_years, Sxx_years. change (length years) with 6%nat.
        cbv [INR].
        cbv [Np.asfloat Chart8.years_proj map In] in Hp.
        destruct Hp as [<-|[<-|[<-|[]]]]; lra. }
    assert (Hq : se / sqrt (Stat.Sxx years) * sqrt (Chart8.spread years p) < se).
    { apply (Rmult_lt_reg_r (sqrt (Stat.Sxx years))); [exact Hroot|].
      replace (se / sqrt (Stat.Sxx years) * sqrt (Chart8.spread years p)
               * sqrt (Stat.Sxx years))
        with (se * sqrt (Chart8.spread years p)) by (field; lra).
      apply Rmult_lt_compat_l; assumption. }
    lra.
Qed.

(** ** When the fit returns *)

Lemma sum_shift (m : R) (l : list R) :
  Np.sum (map (fun u => u - m) l) = Np.sum l - INR (length l) * m.
Proof.
  induction l as [|u l IH]; [simpl; ring|].
  cbn [map]. rewrite !sum_cons, IH.
  change (length (u :: l)) with (S (length l)). rewrite S_INR. ring.
Qed.

(** Deviations from the mean add up to zero. *)
Lemma sum_dev_zero (l : list R) :
  Np.sum (map (fun u => u - Np.mean l) l) = 0.
Proof.
  rewrite sum_shift. destruct l as [|u l]; [simpl; ring|].
  unfold Np.mean. field. apply not_0_INR. simpl. lia.
Qed.

Lemma fold_max_all_equal (l : list R) (c : R) :
  (forall u, In u l -> u = c) -> fold_left Rmax l c = c.
Proof.
  induction l as [|u l IH]; intros H; [reflexivity|].
  cbn [fold_left]. rewrite (H u) by (left; reflexivity).
  rewrite Rmax_left by lra. apply IH. intros w Hw. apply H. right. exact Hw.
Qed.

Lemma fold_min_all_equal (l : list R) (c : R) :
  (forall u, In u l -> u = c) -> fold_left Rmin l c = c.
Proof.
  induction l as [|u l IH]; intros H; [reflexivity|].
  cbn [fold_left]. rewrite (H u) by (left; reflexivity).
  rewrite Rmin_left by lra. apply IH. intros w Hw. apply H. right. exact Hw.
Qed.

(** A series without spread has equal extremes, so the guard on identical
    [x] values fires exactly when [Sxx] vanishes. *)
Lemma Sxx_zero_amax (x : list R) :
  Stat.Sxx x = 0 -> Np.amax x = Np.amin x.
Proof.
  intros Hz. destruct x as [|v l]; [reflexivity|].
  assert (Hall : forall u, In u (v :: l) -> u = Np.mean (v :: l)).
  { intros u Hu.
    pose proof (sum_sq_zero (fun u => u - Np.mean (v :: l)) (v :: l) Hz u Hu).
    lra. }
  unfold Np.amax, Np.amin.
  rewrite (Hall v) at 1 by (left; reflexivity).
  rewrite (Hall v) at 2 by (left; reflexivity).
  rewrite fold_max_all_equal, fold_min_all_equal;
    try reflexivity; intros u Hu; apply Hall; right; exact Hu.
Qed.

(** [linregress] returns a result only past all its guards, and then the
    slope and intercept are the least-squares ones. *)
Lemma linregress_returns (pol : Scipy.constant_policy) (x y : list R)
    (res : Scipy.LinregressResult) :
  Scipy.linregress pol x y = Ok res ->
  length x = length y /\ (2 <= length x)%nat /\ Stat.Sxx x <> 0 /\
  Scipy.slope res = Stat.ols_slope x y /\
  Scipy.intercept res = Stat.ols_intercept x y /\
  -1 <= Scipy.rvalue res <= 1 /\ 0 <= Scipy.stderr res.
Proof.
  intros H.
  assert (Hguards : length x = length y /\ (1 <= length x)%nat /\
                    (Stat.Sxx x = 0 -> length x = 1%nat)).
  { unfold Scipy.linregress in H.
    destruct (length x =? 0)%nat eqn:E0; [discriminate|].
    destruct (length y =? 0)%nat eqn:E0'; [discriminate|]. cbn [orb] in H.
    apply Nat.eqb_neq in E0.
    destruct (Reqb (Np.amax x) (Np.amin x) && (1 <? length x)%nat) eqn:Eg;
      [discriminate|].
    destruct (length x =? length y)%nat eqn:El; [|discriminate].
    apply Nat.eqb_eq in El.
    split; [exact El|]. split; [lia|].
    intros Hz. rewrite (Reqb_true _ _ (Sxx_zero_amax x Hz)) in Eg.
    cbn [andb] in Eg. apply Nat.ltb_ge in Eg. lia. }
  destruct Hguards as [Hlen [Hpos Hone]].
  destruct (Req_dec (Stat.Sxx x) 0) as [Hz|Hnz].
  - (* a single point: the slope is 0/0 *)
    exfalso. specialize (Hone Hz).
    unfold Scipy.linregress in H.
    replace (length x =? 0)%nat with false in H by (symmetry; apply Nat.eqb_neq; lia).
    replace (length y =? 0)%nat with false in H by (symmetry; apply Nat.eqb_neq; lia).
    cbn [orb] in H.
    replace (1 <? length x)%nat with false in H by (symmetry; apply Nat.ltb_ge; lia).
    rewrite andb_false_r in H.
    rewrite <- Hlen, Nat.eqb_refl in H. cbn [negb] in H.
    rewrite cov_bias1_spec in H. cbv beta iota zeta in H.
    rewrite Hz in H.
    assert (Hq : 0 / INR (length x) = 0) by (unfold Rdiv; ring).
    rewrite Hq in H. unfold Np.fdiv in H.
    rewrite (Reqb_true 0 0) in H by reflexivity. cbn [orb] in H.
    destruct (Scipy.degenerate_r pol (Stat.Sxy x y / INR (length x)));
      cbn [bind] in H; discriminate.
  - assert (Hn : (2 <= length x)%nat).
    { destruct x as [|u [|w l]]; cbn [length] in *; try lia.
      exfalso. apply Hnz. apply (Sxx_all_equal [u] u).
      intros w [<-|[]]. reflexivity. }
    rewrite linregress_unfold in H by assumption.
    split; [exact Hlen|]. split; [exact Hn|]. split; [exact Hnz|].
    assert (Hr : forall r : R,
              Ok {| Scipy.slope := Stat.ols_slope x y;
                    Scipy.intercept := Stat.ols_intercept x y;
                    Scipy.rvalue := r;
                    Scipy.stderr :=
                      if (length x =? 2)%nat then 0
                      else sqrt ((1 - r ^ 2) * (Stat.Sxx y / INR (length x))
                                 / (Stat.Sxx x / INR (length x))
                                 / INR (length x - 2)) |} = Ok res ->
              -1 <= r <= 1 ->
              Scipy.slope res = Stat.ols_slope x y /\
              Scipy.intercept res = Stat.ols_intercept x y /\
              -1 <= Scipy.rvalue res <= 1 /\ 0 <= Scipy.stderr res).
    { intros r Hres Hb. injection Hres as <-. cbn.
      repeat split; try reflexivity; try apply Hb.
      destruct (length x =? 2)%nat; [lra | apply sqrt_pos]. }
    destruct (Reqb (Stat.Sxx y / INR (length x)) 0).
    + destruct pol; cbn [Scipy.degenerate_r] in H.
      * cbn [bind] in H. apply (Hr 0 H). lra.
      * destruct (Reqb (Stat.Sxy x y / INR (length x)) 0); cbn [bind] in H;
          [discriminate|]. apply (Hr 0 H). lra.
    + cbn [bind] in H. apply (Hr _ H).
      unfold Scipy.clip_r, Rltb.
      destruct (Rlt_dec 1 _); [lra|].
      destruct (Rlt_dec _ (-1)); lra.
Qed.

(** X4: whenever [linregress] returns a result, the two series are aligned,
    hold at least two points, the [x] values are not all equal, and the
    returned line is the textbook least-squares line: [slope = Sxy / Sxx]
    and [intercept = mean y - slope * mean x]; the reported R^2 lies in
    [0, 1] and the standard error is not negative. *)
Theorem X4_fit_is_textbook_ols (pol : Scipy.constant_policy) (x y : list R)
    (res : Scipy.LinregressResult) :
  Scipy.linregress pol x y = Ok res ->
  length x = length y /\ (2 <= length x)%nat /\ Stat.Sxx x <> 0 /\
  Scipy.slope res = Stat.Sxy x y / Stat.Sxx x /\
  Scipy.intercept res = Np.mean y - Scipy.slope res * Np.mean x /\
  0 <= Scipy.rvalue res ^ 2 <= 1 /\ 0 <= Scipy.stderr res.
Proof.
  intros H.
  destruct (linregress_returns pol x y res H) as [Hl [Hn [Hx [Hb [Ha [Hr Hs]]]]]].
  repeat split; try assumption.
  - rewrite Ha, Hb. reflexivity.
  - apply pow2_ge_0.
  - destruct Hr as [H1 H2]. simpl. nra.
Qed.

Lemma years_revenue_fit (pol : Scipy.constant_policy) :
  Scipy.linregress pol years revenue = Ok (closed_fit years revenue).
Proof.
  apply linregress_ok;
    [reflexivity | cbn; lia | rewrite Sxx_years; lra | rewrite Sxx_revenue; lra].
Qed.

Lemma X4_witness :
  length years = length revenue /\ (2 <= length years)%nat /\
  Stat.Sxx years <> 0 /\
  Scipy.slope (closed_fit years revenue) = Stat.Sxy years revenue / Stat.Sxx years /\
  Scipy.intercept (closed_fit years revenue)
    = Np.mean revenue - Scipy.slope (closed_fit years revenue) * Np.mean years /\
  0 <= Scipy.rvalue (closed_fit years revenue) ^ 2 <= 1 /\
  0 <= Scipy.stderr (closed_fit years revenue).
Proof.
  apply (X4_fit_is_textbook_ols Scipy.ZeroOnConstant).
  apply years_revenue_fit.
Defined.

(** ** Least squares *)

Lemma sum_sq_shift {A : Type} (f : A -> R) (c : R) (l : list A) :
  Np.sum (map (fun p => (f p + c) ^ 2) l)
  = Np.sum (map (fun p => f p ^ 2) l) + 2 * c * Np.sum (map f l)
    + INR (length l) * c ^ 2.
Proof.
  induction l as [|p l IH]; [simpl; ring|].
  cbn [map]. rewrite !sum_cons, IH.
  change (length (p :: l)) with (S (length l)). rewrite S_INR. ring.
Qed.

Lemma sum_centered_residuals (b : R) (x y : list R) :
  length x = length y ->
  Np.sum (map (fun p => (snd p - Np.mean y) - b * (fst p - Np.mean x))
              (combine x y)) = 0.
Proof.
  intros Hlen.
  rewrite (sum_map_ext _ (fun p => (snd p - Np.mean y)
                                   + (- b) * (fst p - Np.mean x)))
    by (intros; ring).
  rewrite (sum_map_plus (fun p => snd p - Np.mean y)
                        (fun p => - b * (fst p - Np.mean x))).
  rewrite (sum_map_scal (- b) (fun p => fst p - Np.mean x)).
  rewrite (sum_combine_snd (fun v => v - Np.mean y)) by exact Hlen.
  rewrite (sum_combine_fst (fun u => u - Np.mean x)) by exact Hlen.
  rewrite !sum_dev_zero. ring.
Qed.

(** The residual sum of squares of an arbitrary line [b * x + a]. *)
Lemma SSres_any_line (b a : R) (x y : list R) :
  length x = length y ->
  Stat.SSres b a x y
  = Stat.Sxx y - 2 * b * Stat.Sxy x y + b ^ 2 * Stat.Sxx x
    + INR (length x) * (Np.mean y - b * Np.mean x - a) ^ 2.
Proof.
  intros Hlen. unfold Stat.SSres.
  rewrite (sum_map_ext _
             (fun p => (((snd p - Np.mean y) - b * (fst p - Np.mean x))
                        + (Np.mean y - b * Np.mean x - a)) ^ 2))
    by (intros; ring).
  rewrite (sum_sq_shift
             (fun p => (snd p - Np.mean y) - b * (fst p - Np.mean x))).
  rewrite sum_centered_residuals by exact Hlen.
  rewrite <- SSres_centered, SSres_expand by exact Hlen.
  rewrite length_combine, <- Hlen, Nat.min_id. ring.
Qed.

(** X1: the line [linregress] returns minimises the residual sum of
    squares: no other slope and intercept fit the observed points with a
    smaller sum of squared residuals. *)
Theorem X1_fit_minimises_residuals (pol : Scipy.constant_policy)
    (x y : list R) (res : Scipy.LinregressResult) (b a : R) :
  Scipy.linregress pol x y = Ok res ->
  Stat.SSres (Scipy.slope res) (Scipy.intercept res) x y <= Stat.SSres b a x y.
Proof.
  intros H.
  destruct (linregress_returns pol x y res H) as [Hl [Hn [Hx [Hb [Ha _]]]]].
  rewrite Hb, Ha, SSres_ols by assumption.
  rewrite SSres_any_line by exact Hl.
  pose proof (Sxx_nonneg x) as Hx0.
  assert (Hpos : 0 < Stat.Sxx x) by lra.
  assert (Hn0 : 0 <= INR (length x)) by apply pos_INR.
  pose proof (pow2_ge_0 (Np.mean y - b * Np.mean x - a)) as Hc.
  assert (Hsq : Stat.Sxx y - 2 * b * Stat.Sxy x y + b ^ 2 * Stat.Sxx x
                = Stat.Sxx y - Stat.Sxy x y ^ 2 / Stat.Sxx x
                  + Stat.Sxx x * (b - Stat.Sxy x y / Stat.Sxx x) ^ 2)
    by (field; lra).
  rewrite Hsq.
  pose proof (pow2_ge_0 (b - Stat.Sxy x y / Stat.Sxx x)) as Hd.
  assert (0 <= Stat.Sxx x * (b - Stat.Sxy x y / Stat.Sxx x) ^ 2)
    by (apply Rmult_le_pos; lra).
  assert (0 <= INR (length x) * (Np.mean y - b * Np.mean x - a) ^ 2)
    by (apply Rmult_le_pos; lra).
  lra.
Qed.

Lemma X1_witness :
  Stat.SSres (Scipy.slope (closed_fit years revenue))
             (Scipy.intercept (closed_fit years revenue)) years revenue
  <= Stat.SSres 1000 0 years revenue.
Proof.
  apply (X1_fit_minimises_residuals Scipy.ZeroOnConstant).
  apply years_revenue_fit.
Defined.

(** X2: the fitted line reproduces the total of the observations: the
    fitted values at the observed periods add up to the sum of the
    observed values, so the residuals add up to zero. *)
Theorem X2_fitted_values_keep_total (pol : Scipy.constant_policy)
    (x y : list R) (res : Scipy.LinregressResult) :
  Scipy.linregress pol x y = Ok res ->
  Np.sum (Chart8.project res x) = Np.sum y /\
  Np.sum (Np.sub y (Chart8.project res x)) = 0.
Proof.
  intros H.
  destruct (linregress_returns pol x y res H) as [Hl [Hn [Hx [Hb [Ha _]]]]].
  assert (Hnx : INR (length x) <> 0) by (apply not_0_INR; lia).
  assert (Hny : INR (length y) <> 0) by (rewrite <- Hl; exact Hnx).
  assert (Hsum : Np.sum (Chart8.project res x) = Np.sum y).
  { unfold Chart8.project.
    rewrite (sum_map_plus (fun p => Scipy.slope res * p)
                          (fun _ => Scipy.intercept res)).
    rewrite (sum_map_scal (Scipy.slope res) (fun p => p)), map_id.
    rewrite sum_map_const, Ha, Hb. unfold Stat.ols_intercept, Np.mean.
    rewrite <- Hl. field. exact Hnx. }
  split; [exact Hsum|].
  rewrite sum_sub.
  - rewrite Hsum. ring.
  - unfold Chart8.project. rewrite length_map. symmetry. exact Hl.
Qed.

Lemma X2_witness :
  Np.sum (Chart8.project (closed_fit years revenue) years) = Np.sum revenue /\
  Np.sum (Np.sub revenue (Chart8.project (closed_fit years revenue) years)) = 0.
Proof.
  apply (X2_fitted_values_keep_total Scipy.ZeroOnConstant).
  apply years_revenue_fit.
Defined.

(** ** Correlation is symmetric *)

Lemma cross_sum_comm (mx my : R) (x y : list R) :
  Np.sum (map (fun p => (fst p - mx) * (snd p - my)) (combine x y))
  = Np.sum (map (fun p => (fst p - my) * (snd p - mx)) (combine y x)).
Proof.
  revert y. induction x as [|u x IH]; intros [|v y]; try reflexivity.
  cbn [combine map fst snd]. rewrite !sum_cons, IH. ring.
Qed.

Lemma Sxy_comm (x y : list R) : Stat.Sxy x y = Stat.Sxy y x.
Proof. unfold Stat.Sxy. apply cross_sum_comm. Qed.

Lemma pearson_comm (x y : list R) : Stat.pearson x y = Stat.pearson y x.
Proof.
  unfold Stat.pearson. rewrite Sxy_comm, (Rmult_comm (Stat.Sxx x)). reflexivity.
Qed.

(** X3: regressing [y] on [x] and [x] on [y] report the same correlation,
    and the product of the two slopes is that correlation squared. *)
Theorem X3_correlation_symmetric (pol : Scipy.constant_policy)
    (x y : list R) (fxy fyx : Scipy.LinregressResult) :
  Scipy.linregress pol x y = Ok fxy ->
  Scipy.linregress pol y x = Ok fyx ->
  Scipy.rvalue fxy = Scipy.rvalue fyx /\
  Scipy.slope fxy * Scipy.slope fyx = Scipy.rvalue fxy ^ 2.
Proof.
  intros Hxy Hyx.
  destruct (linregress_returns pol x y fxy Hxy) as [Hl [Hn [Hx _]]].
  destruct (linregress_returns pol y x fyx Hyx) as [Hl' [Hn' [Hy _]]].
  rewrite linregress_ok in Hxy by assumption.
  rewrite linregress_ok in Hyx by assumption.
  injection Hxy as <-. injection Hyx as <-.
  unfold closed_fit. cbn [Scipy.rvalue Scipy.slope].
  split; [apply pearson_comm|].
  rewrite pearson_sq by assumption.
  unfold Stat.ols_slope. rewrite (Sxy_comm y x). field. split; assumption.
Qed.

Lemma X3_witness :
  Scipy.rvalue (closed_fit revenue expenses)
  = Scipy.rvalue (closed_fit expenses revenue) /\
  Scipy.slope (closed_fit revenue expenses)
  * Scipy.slope (closed_fit expenses revenue)
  = Scipy.rvalue (closed_fit revenue expenses) ^ 2.
Proof.
  apply (X3_correlation_symmetric Scipy.ZeroOnConstant revenue expenses).
  - apply linregress_ok;
      [reflexivity | cbn; lia | rewrite Sxx_revenue; lra | rewrite Sxx_expenses; lra].
  - apply linregress_ok;
      [reflexivity | cbn; lia | rewrite Sxx_expenses; lra | rewrite Sxx_revenue; lra].
Defined.

(** ** Two points *)

Lemma mean_pair (u v : R) : Np.mean [u; v] = (u + v) / 2.
Proof. cbv [Np.mean Np.sum fold_right length INR]. field. Qed.

Lemma Sxx_pair (u v : R) : Stat.Sxx [u; v] = (u - v) ^ 2 / 2.
Proof.
  unfold Stat.Sxx. rewrite mean_pair. cbv [Np.sum map fold_right]. field.
Qed.

Lemma Sxy_pair (u v s t : R) :
  Stat.Sxy [u; v] [s; t] = (u - v) * (s - t) / 2.
Proof.
  unfold Stat.Sxy. rewrite !mean_pair.
  cbv [Np.sum map combine fold_right fst snd]. field.
Qed.

(** X5: through two points with different periods and different values the
    fit is exact: the returned line reproduces both points, the standard
    error is 0 and R^2 is 1. *)
Theorem X5_two_points_fit_exactly (pol : Scipy.constant_policy)
    (x0 x1 y0 y1 : R) :
  x0 <> x1 -> y0 <> y1 ->
  exists res, Scipy.linregress pol [x0; x1] [y0; y1] = Ok res /\
    Chart8.project res [x0; x1] = [y0; y1] /\
    Scipy.stderr res = 0 /\
    Scipy.rvalue res ^ 2 = 1.
Proof.
  intros Hx Hy.
  assert (Hsx : Stat.Sxx [x0; x1] <> 0).
  { rewrite Sxx_pair. intros H.
    assert (Hd : (x0 - x1) * (x0 - x1) = 0) by lra.
    apply Rmult_integral in Hd. lra. }
  assert (Hsy : Stat.Sxx [y0; y1] <> 0).
  { rewrite Sxx_pair. intros H.
    assert (Hd : (y0 - y1) * (y0 - y1) = 0) by lra.
    apply Rmult_integral in Hd. lra. }
  exists (closed_fit [x0; x1] [y0; y1]).
  split; [apply linregress_ok; try assumption; try reflexivity; cbn; lia|].
  assert (Hb : Stat.ols_slope [x0; x1] [y0; y1] = (y0 - y1) / (x0 - x1)).
  { unfold Stat.ols_slope. rewrite Sxy_pair, Sxx_pair. field. lra. }
  split; [|split].
  - unfold Chart8.project, closed_fit. cbn [Scipy.slope Scipy.intercept map].
    unfold Stat.ols_intercept. rewrite Hb, !mean_pair.
    f_equal; [|f_equal]; field; lra.
  - reflexivity.
  - change (Scipy.rvalue (closed_fit [x0; x1] [y0; y1]))
      with (Stat.pearson [x0; x1] [y0; y1]).
    rewrite pearson_sq by assumption.
    rewrite Sxy_pair, !Sxx_pair. field. split; lra.
Qed.

Lemma X5_witness :
  exists res,
    Scipy.linregress Scipy.NanOnConstant [2023; 2024] [16325; 18202] = Ok res /\
    Chart8.project res [2023; 2024] = [16325; 18202] /\
    Scipy.stderr res = 0 /\
    Scipy.rvalue res ^ 2 = 1.
Proof.
  apply X5_two_points_fit_exactly; lra.
Defined.

(** ** Sign and failure of the growth rate *)

Lemma Rpower_one (e : R) : Rpower 1 e = 1.
Proof. unfold Rpower. rewrite ln_1, Rmult_0_r. apply exp_0. Qed.

(** X6: for a positive first value, a non-negative last value and a
    positive span, the growth rate is at least -1, is positive exactly
    when the series grew, and is zero exactly when it ended where it
    started. *)
Theorem X6_cagr_sign (v0 vn : R) (n : Z) :
  0 < v0 -> 0 <= vn -> (0 < n)%Z ->
  exists c, Chart8.cagr v0 vn n = Ok c /\
    -1 <= c /\ (0 < c <-> v0 < vn) /\ (c = 0 <-> vn = v0).
Proof.
  intros Hv0 Hvn Hn.
  assert (HnR : IZR n = INR (Z.to_nat n)).
  { rewrite INR_IZR_INZ, Z2Nat.id by lia. reflexivity. }
  assert (Hnat : (0 < Z.to_nat n)%nat) by lia.
  unfold Chart8.cagr, Np.fdiv, py_inv.
  rewrite (Reqb_false v0 0) by lra.
  replace (n =? 0)%Z with false by (symmetry; apply Z.eqb_neq; lia).
  cbn [bind]. unfold Np.power.
  destruct Hvn as [Hpos|Hzero].
  - assert (Hq : 0 < vn / v0) by (apply Rdiv_lt_0_compat; assumption).
    rewrite (Rltb_true 0 (vn / v0) Hq). cbn [bind].
    eexists. split; [reflexivity|].
    set (r := Rpower (vn / v0) (1 / IZR n)).
    assert (Hr : 0 < r) by apply exp_pos.
    assert (Hrn : r ^ Z.to_nat n = vn / v0).
    { unfold r. rewrite HnR. apply Rpower_root_pow; assumption. }
    assert (Hq1 : 1 < vn / v0 <-> v0 < vn).
    { split; intros Hlt.
      - apply (Rmult_lt_compat_r v0) in Hlt; [|exact Hv0].
        replace (vn / v0 * v0) with vn in Hlt by (field; lra). lra.
      - apply (Rmult_lt_reg_r v0); [exact Hv0|].
        replace (vn / v0 * v0) with vn by (field; lra). lra. }
    split; [lra|]. split; [split|split].
    + intros Hc. apply Hq1. rewrite <- Hrn.
      apply Rlt_pow_R1; [lra | exact Hnat].
    + intros Hlt. apply Hq1 in Hlt.
      apply Rnot_le_lt. intros Hle.
      assert (Hle1 : r <= 1) by lra.
      pose proof (pow_incr r 1 (Z.to_nat n) (conj (Rlt_le _ _ Hr) Hle1)) as Hp.
      rewrite pow1, Hrn in Hp. lra.
    + intros Hc. assert (Hr1 : r = 1) by lra.
      rewrite Hr1, pow1 in Hrn.
      apply (Rmult_eq_compat_r v0) in Hrn.
      replace (vn / v0 * v0) with vn in Hrn by (field; lra). lra.
    + intros ->. unfold r.
      replace (v0 / v0) with 1 by (field; lra).
      rewrite Rpower_one. ring.
  - subst vn.
    assert (Hq : 0 / v0 = 0) by (unfold Rdiv; ring). rewrite Hq.
    rewrite (Rltb_false 0 0) by lra. rewrite (Reqb_true 0 0) by reflexivity.
    rewrite (Rltb_true 0 (1 / IZR n)).
    2:{ apply Rdiv_lt_0_compat; [lra | apply IZR_lt; exact Hn]. }
    cbn [bind]. eexists. split; [reflexivity|].
    split; [lra|]. split; split; intros; lra.
Qed.

Lemma X6_witness :
  exists c, Chart8.cagr 13200 18202 5 = Ok c /\
    -1 <= c /\ (0 < c <-> 13200 < 18202) /\ (c = 0 <-> 18202 = 13200).
Proof.
  apply X6_cagr_sign; [lra | lra | lia].
Defined.

Lemma fifth_not_integer (z : Z) : 1 / 5 <> IZR z.
Proof.
  intros Heq.
  assert (H1 : IZR 1 = IZR (5 * z)) by (rewrite mult_IZR, <- Heq; lra).
  apply eq_IZR in H1. lia.
Qed.

(** X7: the growth rate over the script's five-year span never raises.
    It is a number exactly when the first value is not zero and the ratio
    of last to first value is not negative; otherwise it is not finite. *)
Theorem X7_cagr_failure_modes (v0 vn : R) :
  (forall e, Chart8.cagr v0 vn 5 <> Raises e) /\
  ((exists c, Chart8.cagr v0 vn 5 = Ok c) <-> v0 <> 0 /\ 0 <= vn / v0) /\
  (Chart8.cagr v0 vn 5 = NonFinite <-> v0 = 0 \/ vn / v0 < 0).
Proof.
  unfold Chart8.cagr, Np.fdiv, py_inv. change (5 =? 0)%Z with false.
  destruct (Req_dec v0 0) as [Hz|Hnz].
  - rewrite (Reqb_true _ _ Hz). cbn [bind].
    split; [intros e; discriminate|].
    split; split.
    + intros [c Hc]. discriminate.
    + intros [H _]. contradiction.
    + intros _. left. exact Hz.
    + reflexivity.
  - rewrite (Reqb_false _ _ Hnz). cbn [bind]. unfold Np.power.
    destruct (Rtotal_order 0 (vn / v0)) as [Hpos|[Hzero|Hneg]].
    + rewrite (Rltb_true _ _ Hpos). cbn [bind].
      split; [intros e; discriminate|].
      split; split.
      * intros _. split; [exact Hnz | lra].
      * intros _. eexists. reflexivity.
      * discriminate.
      * intros [H|H]; [contradiction | lra].
    + rewrite <- Hzero.
      rewrite (Rltb_false 0 0) by lra. rewrite (Reqb_true 0 0) by reflexivity.
      rewrite (Rltb_true 0 (1 / 5)) by lra. cbn [bind].
      split; [intros e; discriminate|].
      split; split.
      * intros _. split; [exact Hnz | lra].
      * intros _. eexists. reflexivity.
      * discriminate.
      * intros [H|H]; [contradiction | lra].
    + rewrite (Rltb_false 0 (vn / v0)) by lra.
      rewrite (Reqb_false (vn / v0) 0) by lra.
      rewrite (Reqb_false (1 / 5) _ (fifth_not_integer _)). cbn [bind].
      split; [intros e; discriminate|].
      split; split.
      * intros [c Hc]. discriminate.
      * intros [_ H]. lra.
      * intros _. right. exact Hneg.
      * reflexivity.
Qed.

(** ** Surplus annotations of panel 8b *)

Lemma index_app_fresh (pre l : list Z) (y : Z) :
  ~ In y pre ->
  Annotate.index (pre ++ y :: l) y = Some (length pre).
Proof.
  induction pre as [|z pre IH]; intros Hnin; cbn [app Annotate.index length].
  - rewrite Z.eqb_refl. reflexivity.
  - replace (z =? y)%Z with false.
    + rewrite IH; [reflexivity|]. intros Hin. apply Hnin. right. exact Hin.
    + symmetry. apply Z.eqb_neq. intros ->. apply Hnin. left. reflexivity.
Qed.

Lemma nth_error_app_here {A : Type} (pre l : list A) (a : A) :
  nth_error (pre ++ a :: l) (length pre) = Some a.
Proof. induction pre as [|b pre IH]; [reflexivity | exact IH]. Qed.

Lemma annotate_loop_spec (pre ys : list Z) (epre es ss : list R) :
  NoDup (pre ++ ys) -> length epre = length pre ->
  length es = length ys -> length ss = length ys ->
  Annotate.loop (pre ++ ys) (epre ++ es) (combine ys ss)
  = inr (map Annotate.annotation_of (combine ys (combine ss es))).
Proof.
  revert pre epre es ss.
  induction ys as [|y ys IH]; intros pre epre es ss Hnd Hpre Hes Hss.
  - reflexivity.
  - destruct es as [|e es]; [discriminate|].
    destruct ss as [|s ss]; [discriminate|].
    cbn [combine Annotate.loop map].
    assert (Hfresh : ~ In y pre).
    { apply NoDup_remove_2 in Hnd. intros Hin. apply Hnd.
      apply in_or_app. left. exact Hin. }
    unfold Annotate.lookup.
    rewrite (index_app_fresh pre ys y Hfresh).
    rewrite <- Hpre, nth_error_app_here.
    specialize (IH (pre ++ [y]) (epre ++ [e]) es ss).
    rewrite <- !app_assoc in IH. cbn [app] in IH.
    rewrite IH; [reflexivity | exact Hnd | | |].
    + rewrite !length_app. cbn [length]. lia.
    + cbn [length] in Hes. lia.
    + cbn [length] in Hss. lia.
Qed.

(** X8: when the projected years hold no duplicate and the projections
    are aligned with them, the look-up [exp_proj[list(years_proj).index(y)]]
    never fails and picks the projection of the year being annotated: the
    i-th annotation sits at the i-th year, 0.3 above the i-th expense
    projection in billions, shows the i-th surplus, and is green exactly
    when that surplus is not negative. *)
Theorem X8_annotations_follow_their_year
    (years_proj : list Z) (surplus_proj exp_proj : list R) :
  NoDup years_proj ->
  length surplus_proj = length years_proj ->
  length exp_proj = length years_proj ->
  Annotate.run years_proj surplus_proj exp_proj
  = inr (map Annotate.annotation_of
             (combine years_proj (combine surplus_proj exp_proj))).
Proof.
  intros Hnd Hs He. unfold Annotate.run.
  exact (annotate_loop_spec [] years_proj [] exp_proj surplus_proj Hnd
           eq_refl He Hs).
Qed.

Lemma X8_witness :
  Annotate.run Chart8.years_proj [100; 200; -300] [10; 20; 30]
  = inr (map Annotate.annotation_of
             (combine Chart8.years_proj
                      (combine [100; 200; -300] [10; 20; 30]))).
Proof.
  apply X8_annotations_follow_their_year.
  - unfold Chart8.years_proj.
    repeat constructor; cbn [In]; intros H;
      repeat destruct H as [H|H]; try discriminate; exact H.
  - reflexivity.
  - reflexivity.
Defined.

(** ** Guarded percentages *)


(** X13: an investment row is labelled '+NEW' exactly when its 2023 value
    is not positive, or when its 2024 value is 10.99 times its 2023 value
    (a true change of 999%, which the sentinel cannot tell apart); and
    every row labelled '+NEW' is drawn in green. *)
Theorem X13_new_label_sentinel (v23 v24 : R) :
  (Percent.inv_label (Percent.inv_pct v23 v24) = Percent.NewLabel
   <-> v23 <= 0 \/ v24 = 10.99 * v23) /\
  (Percent.inv_label (Percent.inv_pct v23 v24) = Percent.NewLabel ->
   Percent.inv_colour (Percent.inv_pct v23 v24) = Theme.GREEN_ACC).
Proof.
  assert (Hlab : forall pct, Percent.inv_label pct = Percent.NewLabel <-> pct = 999).
  { intros pct. unfold Percent.inv_label, Reqb.
    destruct (Req_EM_T pct 999); split; intros H; congruence. }
  split.
  - rewrite Hlab. unfold Percent.inv_pct, Rltb.
    destruct (Rlt_dec 0 v23) as [Hpos|Hnpos].
    + assert (Hv : (v24 - v23) / v23 * 100 * v23 = (v24 - v23) * 100)
        by (field; lra).
      split.
      * intros H. right. rewrite H in Hv. lra.
      * intros [H|H]; [lra|].
        apply (Rmult_eq_reg_r v23); [|lra]. rewrite Hv, H. lra.
    + split; [intros _; left; lra | reflexivity].
  - intros H. apply Hlab in H. rewrite H.
    unfold Percent.inv_colour. rewrite (Rltb_true 0 999) by lra. reflexivity.
Qed.

(** ** The net debt bridge *)

Lemma bridge_loop_tail (n : Z) (mid : list Z) :
  forall (its : list String.string) (itl : String.string) (vl i r : Z)
         (acc : Bridge.Bars),
  (0 < i)%Z -> (i + Z.of_nat (length mid) = n - 1)%Z ->
  length its = length mid ->
  Bridge.loop n i (combine (its ++ [itl]) (mid ++ [vl])) r acc
  = ((r + zsum mid)%Z,
     {| Bridge.bottoms :=
          Bridge.bottoms acc ++ Bridge.running_before r mid ++ [0%Z];
        Bridge.heights := Bridge.heights acc ++ mid ++ [vl];
        Bridge.bar_colors :=
          Bridge.bar_colors acc ++ map Bridge.step_colour mid ++ [Theme.NAVY] |}).
Proof.
  induction mid as [|v mid IH]; intros its itl vl i r acc Hi Hn Hlen.
  - destruct its; [|discriminate]. cbn [app combine Bridge.loop].
    replace (i =? 0)%Z with false by (symmetry; apply Z.eqb_neq; lia).
    replace (i =? n - 1)%Z with true
      by (symmetry; apply Z.eqb_eq; cbn [length Z.of_nat] in Hn; lia).
    cbn [orb zsum fold_right Bridge.running_before map app].
    rewrite Z.add_0_r. reflexivity.
  - destruct its as [|it its]; [discriminate|].
    cbn [app combine Bridge.loop].
    replace (i =? 0)%Z with false by (symmetry; apply Z.eqb_neq; lia).
    replace (i =? n - 1)%Z with false
      by (symmetry; apply Z.eqb_neq; cbn [length] in Hn; lia).
    cbn [orb].
    assert (Hn' : (i + 1 + Z.of_nat (length mid) = n - 1)%Z)
      by (cbn [length] in Hn; lia).
    assert (Hlen' : length its = length mid) by (cbn [length] in Hlen; lia).
    assert (Hsum : (r + zsum (v :: mid) = r + v + zsum mid)%Z)
      by (cbn [zsum fold_right]; fold (zsum mid); lia).
    rewrite Hsum.
    unfold Bridge.step_colour at 1. cbn [map Bridge.running_before].
    fold Bridge.step_colour.
    destruct (v <? 0)%Z;
      rewrite (IH its itl vl (i + 1)%Z (r + v)%Z _ ltac:(lia) Hn' Hlen');
      cbn [Bridge.push Bridge.bottoms Bridge.heights Bridge.bar_colors];
      rewrite <- !app_assoc; reflexivity.
Qed.

Lemma bridge_run_spec (it0 itl : String.string) (its : list String.string)
    (v0 vl running : Z) (mid : list Z) :
  length its = length mid ->
  Bridge.run (it0 :: its ++ [itl]) (v0 :: mid ++ [vl]) running
  = ((running + zsum mid)%Z,
     {| Bridge.bottoms := 0%Z :: Bridge.running_before running mid ++ [0%Z];
        Bridge.heights := v0 :: mid ++ [vl];
        Bridge.bar_colors :=
          Theme.NAVY :: map Bridge.step_colour mid ++ [Theme.NAVY] |}).
Proof.
  intros Hlen. unfold Bridge.run.
  cbn [combine Bridge.loop]. rewrite Z.eqb_refl. cbn [orb].
  rewrite (bridge_loop_tail _ mid its itl vl); try assumption; try lia.
  - reflexivity.
  - cbn [length]. rewrite length_app. cbn [length]. lia.
Qed.

(** X9: for aligned lists of at least two items the bridge is this: the
    first and the last bar stand on zero in navy; every bar between stands
    on the running total of the steps before it, red for a negative step
    and green otherwise; the heights are the values themselves; and the
    loop ends with the starting total plus the sum of the steps between. *)
Theorem X9_bridge_bars (it0 itl : String.string) (its : list String.string)
    (v0 vl running : Z) (mid : list Z) :
  length its = length mid ->
  Bridge.run (it0 :: its ++ [itl]) (v0 :: mid ++ [vl]) running
  = ((running + zsum mid)%Z,
     {| Bridge.bottoms := 0%Z :: Bridge.running_before running mid ++ [0%Z];
        Bridge.heights := v0 :: mid ++ [vl];
        Bridge.bar_colors :=
          Theme.NAVY :: map Bridge.step_colour mid ++ [Theme.NAVY] |}).
Proof. exact (bridge_run_spec it0 itl its v0 vl running mid). Qed.

Lemma X9_witness :
  Bridge.run Bridge.items Bridge.vals (-9602)
  = ((-9602 + zsum [-2564; 2016; 165])%Z,
     {| Bridge.bottoms :=
          0%Z :: Bridge.running_before (-9602) [-2564; 2016; 165]%Z ++ [0%Z];
        Bridge.heights := Bridge.vals;
        Bridge.bar_colors :=
          Theme.NAVY :: map Bridge.step_colour [-2564; 2016; 165]%Z
                     ++ [Theme.NAVY] |}).
Proof.
  exact (X9_bridge_bars _ _ (tl (removelast Bridge.items)) (-9602) (-10005)
           (-9602) [-2564; 2016; 165]%Z eq_refl).
Defined.

Lemma bridge_loop_aligned (n : Z) (zs : list (String.string * Z)) :
  forall (i r : Z) (acc : Bridge.Bars),
  let b := snd (Bridge.loop n i zs r acc) in
  Bridge.heights b = Bridge.heights acc ++ map snd zs /\
  length (Bridge.bottoms b) = (length (Bridge.bottoms acc) + length zs)%nat /\
  length (Bridge.bar_colors b)
    = (length (Bridge.bar_colors acc) + length zs)%nat.
Proof.
  induction zs as [|[it v] zs IH]; intros i r acc; cbn zeta.
  - cbn [Bridge.loop snd map length]. rewrite app_nil_r.
    repeat split; try reflexivity; lia.
  - cbn [Bridge.loop map snd length].
    destruct ((i =? 0) || (i =? n - 1))%Z; [|destruct (v <? 0)%Z];
      match goal with
      | |- context [Bridge.loop n ?j zs ?s ?a] =>
          destruct (IH j s a) as [H1 [H2 H3]]
      end;
      rewrite H1, H2, H3;
      cbn [Bridge.push Bridge.bottoms Bridge.heights Bridge.bar_colors];
      rewrite !length_app, <- app_assoc; cbn [length app];
      repeat split; try reflexivity; lia.
Qed.

Lemma map_snd_combine {A B : Type} (l : list A) (l' : list B) :
  map snd (combine l l') = firstn (length l) l'.
Proof.
  revert l'. induction l as [|a l IH]; intros [|b l']; try reflexivity.
  cbn [combine map snd length firstn]. rewrite IH. reflexivity.
Qed.

(** X10: whatever the lengths of the two lists, the three lists the bridge
    loop builds stay aligned: each has one entry per zipped pair, and the
    heights are the leading values unchanged. *)
Theorem X10_bridge_lists_aligned (items : list String.string) (vals : list Z)
    (running : Z) :
  let b := snd (Bridge.run items vals running) in
  Bridge.heights b = firstn (length items) vals /\
  length (Bridge.bottoms b) = Nat.min (length items) (length vals) /\
  length (Bridge.bar_colors b) = Nat.min (length items) (length vals).
Proof.
  cbn zeta. unfold Bridge.run.
  destruct (bridge_loop_aligned (Z.of_nat (length items)) (combine items vals)
              0%Z running Bridge.no_bars) as [H1 [H2 H3]].
  rewrite H1, H2, H3. cbn [Bridge.no_bars Bridge.heights Bridge.bottoms
                            Bridge.bar_colors app length].
  rewrite map_snd_combine, length_combine. repeat split; lia.
Qed.

(** ** The liability stack *)

Lemma stack_loop_spec (zs : list (String.string * Z)) :
  forall (i r : Z),
  let out := Stack.loop i zs r in
  map (fun c => Stack.bar_bottom (fst c)) (fst out)
    = map (fun t => IZR t / 1000) (Stack.stack_before r (map snd zs)) /\
  snd out = (r + zsum (map (fun v => Z.max v 0) (map snd zs)))%Z /\
  (r <= snd out)%Z.
Proof.
  induction zs as [|[cat v] zs IH]; intros i r; cbn zeta.
  - cbn [Stack.loop fst snd map Stack.stack_before zsum fold_right].
    repeat split; lia.
  - cbn [Stack.loop map snd Stack.stack_before].
    assert (Hr : (if (0 <? v)%Z then (r + v)%Z else r) = (r + Z.max v 0)%Z).
    { destruct (0 <? v)%Z eqn:E;
        [apply Z.ltb_lt in E | apply Z.ltb_ge in E]; lia. }
    rewrite Hr.
    specialize (IH (i + 1)%Z (r + Z.max v 0)%Z). cbn zeta in IH.
    destruct (Stack.loop (i + 1) zs (r + Z.max v 0)) as [calls final].
    cbn [fst snd] in IH. destruct IH as [H1 [H2 H3]].
    cbn [fst snd map Stack.bar_bottom zsum fold_right].
    rewrite H1, H2. fold (zsum (map (fun v => Z.max v 0) (map snd zs))).
    repeat split; lia.
Qed.

Lemma stack_before_bounds (l : list Z) :
  forall r t, In t (Stack.stack_before r l) ->
  (r <= t <= r + zsum (map (fun v => Z.max v 0) l))%Z.
Proof.
  induction l as [|v l IH]; intros r t Hin; [contradiction|].
  cbn [Stack.stack_before map zsum fold_right] in *.
  fold (zsum (map (fun v => Z.max v 0) l)).
  assert (Hs : (0 <= zsum (map (fun v => Z.max v 0) l))%Z).
  { clear. induction l as [|w l IH]; cbn [map zsum fold_right]; [lia|].
    fold (zsum (map (fun v => Z.max v 0) l)). lia. }
  destruct Hin as [<-|Hin]; [lia|].
  specialize (IH _ _ Hin). lia.
Qed.

(** X11: in the liability stack every bar stands on the sum of the
    positive values before it, so a value that is not positive is drawn on
    top of the stack and leaves its height unchanged; the loop ends with
    the sum of the positive values, and no bar stands below zero or above
    that final height. *)
Theorem X11_stack_counts_positive_values
    (categories_nd : list String.string) (vals_nd : list Z) :
  let vs := firstn (length categories_nd) vals_nd in
  let out := Stack.run categories_nd vals_nd in
  map (fun c => Stack.bar_bottom (fst c)) (fst out)
    = map (fun t => IZR t / 1000) (Stack.stack_before 0 vs) /\
  snd out = zsum (map (fun v => Z.max v 0) vs) /\
  Forall (fun c => 0 <= Stack.bar_bottom (fst c) <= IZR (snd out) / 1000)
         (fst out).
Proof.
  cbn zeta. unfold Stack.run.
  destruct (stack_loop_spec (combine categories_nd vals_nd) 0%Z 0%Z)
    as [H1 [H2 _]].
  rewrite map_snd_combine in H1, H2.
  split; [exact H1|]. split; [rewrite H2; lia|].
  apply Forall_forall. intros c Hc.
  assert (Hin : In (Stack.bar_bottom (fst c))
                   (map (fun c => Stack.bar_bottom (fst c))
                        (fst (Stack.loop 0 (combine categories_nd vals_nd) 0))))
    by (apply in_map_iff; exists c; split; [reflexivity | exact Hc]).
  rewrite H1 in Hin. apply in_map_iff in Hin. destruct Hin as [t [<- Ht]].
  apply stack_before_bounds in Ht. rewrite H2.
  destruct Ht as [Hlo Hhi]. apply IZR_le in Hlo. apply IZR_le in Hhi.
  split.
  - apply Rmult_le_pos; lra.
  - apply Rmult_le_compat_r; [lra | exact Hhi].
Qed.
